(** * newsletter-sender: the send loop of [main.py], embedded and verified

    The program is a single class, [NewsletterSender].  Its methods talk to
    a mail server, the clock and the file system.  The embedding keeps the
    control flow of the source (the [with] blocks, the two nested [for]
    loops, the [try]/[except] clauses, [break] and [raise]) and replaces
    the outside world by an oracle: the k-th call of an effect gets the k-th
    answer of the oracle.  Every effect leaves an event in a trace, so that
    what the program did, and in which order, can be stated.

    Console output ([print]) and the [logging] calls have no influence on
    control flow and are left out.

    In this model of the whole run times are rationals (seconds) and
    [time.sleep] always returns: it is the run for configurations whose
    waits [time.sleep] accepts, and what is proved on it is the order of
    the events, the counter, the sessions and the files.  How the limiter
    computes a wait on doubles, and which waits [time.sleep] refuses, is
    modelled apart, in [Doubles]. *)

From Stdlib Require Import ZArith QArith List String Bool Lia.
From Stdlib Require Floats.
Import ListNotations.
Local Open Scope string_scope.
Local Open Scope list_scope.
Local Open Scope Z_scope.

(** ** Data *)

(** The exceptions the source distinguishes.  [Exception] stands for every
    exception that is neither of the two [smtplib] classes named in an
    [except] clause; the string is what [str(e)] returns. *)
Inductive exn : Type :=
| SMTPServerDisconnected (msg : string)
| SMTPAuthenticationError (msg : string)
| Exception (msg : string).

Definition str (e : exn) : string :=
  match e with
  | SMTPServerDisconnected m => m
  | SMTPAuthenticationError m => m
  | Exception m => m
  end.

Definition is_disconnected (e : exn) : bool :=
  match e with SMTPServerDisconnected _ => true | _ => false end.

(** [config.yml], after [yaml.safe_load]. *)
Record smtp_config := mkSmtp {
  host : string; port : Z; username : string; password : string }.
Record email_config := mkEmail { subject : string; from : string }.
Record rate_limit_config := mkRate {
  emails_per_batch : Z; batch_delay : Z; delay_between_emails : Q }.
Record config := mkConfig {
  smtp : smtp_config; email : email_config; rate_limit : rate_limit_config }.

(** A row of [csv.DictReader]: a dict from column names to values, for a
    line of the file that has a value for every column (see [DictReader]
    below); the [None] of a line that is too short is not a value here. *)
Definition recipient := list (string * string).

Fixpoint lookup (k : string) (d : recipient) : option string :=
  match d with
  | [] => None
  | (k', v) :: d' => if String.eqb k k' then Some v else lookup k d'
  end.

(** The message handed to [server.send_message]. *)
Record message := mkMessage {
  msg_Subject : string; msg_From : string; msg_To : string; msg_html : string }.

Definition row := list string.

Definition header : row := ["email"; "status"; "error_message"].

(** What the program does to the outside world, in order. *)
Inductive event : Type :=
| EvConnect (sid : nat)               (* smtplib.SMTP_SSL(host, port) *)
| EvLogin (sid : nat)                 (* server.login(username, password) *)
| EvQuit (sid : nat)                  (* leaving a [with SMTP_SSL(...)] block *)
| EvReadTemplate                      (* open(template_path).read() *)
| EvReadRecipients                    (* the csv.DictReader pass *)
| EvOpenResults                       (* open(results_file, 'w') *)
| EvWriteRow (r : row)                (* writer.writerow(r) *)
| EvRateLimit                         (* entry of _rate_limit *)
| EvTime (t : Q)                      (* time.time() returned t *)
| EvSleep (d : Q)                     (* time.sleep(d) *)
| EvSend (sid : nat) (m : message)    (* server.send_message(m) on session sid *)
| EvSentCount (n : Z)                 (* self.sent_count was assigned n *)
| EvLastSendTime (t : Q).             (* self.last_send_time was assigned t *)

(** The oracle: the answer of the world to the k-th call of each effect.
    [None] is a call that returns normally. *)
Record world := mkWorld {
  clock : nat -> Q;
  connect_result : nat -> option exn;
  login_result : nat -> option exn;
  quit_result : nat -> option exn;
  send_result : nat -> option exn;
  template_file : nat -> string + exn;
  recipients_csv : list recipient + exn }.

(** The fields of [self] that change, the local variable [server], the
    results file, and how many answers of the oracle have been used. *)
Record state := mkState {
  sent_count : Z;
  last_send_time : Q;
  server : nat;
  results_file : option (list row);
  n_time : nat;
  n_connect : nat;
  n_login : nat;
  n_quit : nat;
  n_send : nat;
  n_read : nat }.

Definition set_sent_count (v : Z) (s : state) : state :=
  mkState v (last_send_time s) (server s) (results_file s)
    (n_time s) (n_connect s) (n_login s) (n_quit s) (n_send s) (n_read s).
Definition set_last_send_time (v : Q) (s : state) : state :=
  mkState (sent_count s) v (server s) (results_file s)
    (n_time s) (n_connect s) (n_login s) (n_quit s) (n_send s) (n_read s).
Definition set_server (v : nat) (s : state) : state :=
  mkState (sent_count s) (last_send_time s) v (results_file s)
    (n_time s) (n_connect s) (n_login s) (n_quit s) (n_send s) (n_read s).
Definition set_results_file (v : option (list row)) (s : state) : state :=
  mkState (sent_count s) (last_send_time s) (server s) v
    (n_time s) (n_connect s) (n_login s) (n_quit s) (n_send s) (n_read s).
Definition tick_time (s : state) : state :=
  mkState (sent_count s) (last_send_time s) (server s) (results_file s)
    (S (n_time s)) (n_connect s) (n_login s) (n_quit s) (n_send s) (n_read s).
Definition tick_connect (s : state) : state :=
  mkState (sent_count s) (last_send_time s) (server s) (results_file s)
    (n_time s) (S (n_connect s)) (n_login s) (n_quit s) (n_send s) (n_read s).
Definition tick_login (s : state) : state :=
  mkState (sent_count s) (last_send_time s) (server s) (results_file s)
    (n_time s) (n_connect s) (S (n_login s)) (n_quit s) (n_send s) (n_read s).
Definition tick_quit (s : state) : state :=
  mkState (sent_count s) (last_send_time s) (server s) (results_file s)
    (n_time s) (n_connect s) (n_login s) (S (n_quit s)) (n_send s) (n_read s).
Definition tick_send (s : state) : state :=
  mkState (sent_count s) (last_send_time s) (server s) (results_file s)
    (n_time s) (n_connect s) (n_login s) (n_quit s) (S (n_send s)) (n_read s).
Definition tick_read (s : state) : state :=
  mkState (sent_count s) (last_send_time s) (server s) (results_file s)
    (n_time s) (n_connect s) (n_login s) (n_quit s) (n_send s) (S (n_read s)).

(** The state [__init__] leaves: nothing sent, nothing used. *)
Definition init : state := mkState 0 0%Q 0%nat None 0 0 0 0 0 0.

(** ** The monad: state, exceptions and a trace *)

Inductive outcome (A : Type) : Type :=
| Ok (a : A)
| Raise (e : exn).
Arguments Ok {A} a.
Arguments Raise {A} e.

Definition M (A : Type) : Type := state -> outcome A * state * list event.

Definition ret {A} (a : A) : M A := fun s => (Ok a, s, []).

Definition raise {A} (e : exn) : M A := fun s => (Raise e, s, []).

Definition bind {A B} (m : M A) (k : A -> M B) : M B :=
  fun s =>
    match m s with
    | (Ok a, s1, t1) => let '(r, s2, t2) := k a s1 in (r, s2, t1 ++ t2)
    | (Raise e, s1, t1) => (Raise e, s1, t1)
    end.

(** [try: m  except ... as e: h e] *)
Definition try_except {A} (m : M A) (h : exn -> M A) : M A :=
  fun s =>
    match m s with
    | (Ok a, s1, t1) => (Ok a, s1, t1)
    | (Raise e, s1, t1) => let '(r, s2, t2) := h e s1 in (r, s2, t1 ++ t2)
    end.

(** [try: m  finally: f] with an [f] that may itself raise, as [__exit__]
    of a context manager does: what [f] raises replaces the outcome of [m]. *)
Definition finally {A} (m : M A) (f : M unit) : M A :=
  fun s =>
    let '(r, s1, t1) := m s in
    match f s1 with
    | (Ok _, s2, t2) => (r, s2, t1 ++ t2)
    | (Raise e, s2, t2) => (Raise e, s2, t1 ++ t2)
    end.

Definition emit (e : event) : M unit := fun s => (Ok tt, s, [e]).
Definition gets {A} (f : state -> A) : M A := fun s => (Ok (f s), s, []).
Definition modify (f : state -> state) : M unit := fun s => (Ok tt, f s, []).

Declare Scope monad_scope.
Delimit Scope monad_scope with monad.
Notation "x <- m ;; k" := (bind m (fun x => k))
  (at level 61, m at next level, right associativity) : monad_scope.
Notation "m ;; k" := (bind m (fun _ => k))
  (at level 61, right associativity) : monad_scope.
Local Open Scope monad_scope.

(** How a loop body ends: it falls through to the next item or [break]s. *)
Inductive ctl : Type := Continue | Break.

(** [for x in xs: body x] *)
Fixpoint for_in {A} (xs : list A) (body : A -> M ctl) : M unit :=
  match xs with
  | [] => ret tt
  | x :: xs' =>
      c <- body x ;;
      match c with
      | Break => ret tt
      | Continue => for_in xs' body
      end
  end.

(** [range(n)] and [range(n, 0, -1)] *)
Definition range (n : Z) : list Z :=
  map Z.of_nat (seq 0 (Z.to_nat n)).
Definition range_down (n : Z) : list Z :=
  map (fun k => n - Z.of_nat k) (seq 0 (Z.to_nat n)).

Definition Qltb (x y : Q) : bool :=
  match Qcompare x y with Lt => true | _ => false end.

(** ** The program *)

Section NewsletterSender.

Variable w : world.
Variable cfg : config.          (* self.config *)

(** *** Effects *)

Definition time_time : M Q := fun s =>
  let t := clock w (n_time s) in (Ok t, tick_time s, [EvTime t]).

Definition time_sleep (d : Q) : M unit := emit (EvSleep d).

(** [smtplib.SMTP_SSL(host, port)]: the new session is named by the number
    of the call. *)
Definition SMTP_SSL : M nat := fun s =>
  let sid := n_connect s in
  match connect_result w sid with
  | None => (Ok sid, tick_connect s, [EvConnect sid])
  | Some e => (Raise e, tick_connect s, [EvConnect sid])
  end.

Definition login (sid : nat) : M unit := fun s =>
  match login_result w (n_login s) with
  | None => (Ok tt, tick_login s, [EvLogin sid])
  | Some e => (Raise e, tick_login s, [EvLogin sid])
  end.

Definition send_message (sid : nat) (m : message) : M unit := fun s =>
  match send_result w (n_send s) with
  | None => (Ok tt, tick_send s, [EvSend sid m])
  | Some e => (Raise e, tick_send s, [EvSend sid m])
  end.

(** [SMTP.__exit__]: QUIT; a server that has gone away is not an error. *)
Definition smtp_exit (sid : nat) : M unit := fun s =>
  match quit_result w (n_quit s) with
  | None => (Ok tt, tick_quit s, [EvQuit sid])
  | Some (SMTPServerDisconnected _) => (Ok tt, tick_quit s, [EvQuit sid])
  | Some e => (Raise e, tick_quit s, [EvQuit sid])
  end.

(** [with smtplib.SMTP_SSL(host, port) as server: body server] *)
Definition with_SMTP_SSL {A} (body : nat -> M A) : M A :=
  sid <- SMTP_SSL ;;
  finally (body sid) (smtp_exit sid).

(** [with open(template_path, 'r', encoding='utf-8') as f: f.read()] *)
Definition read_template_file : M string := fun s =>
  match template_file w (n_read s) with
  | inl html => (Ok html, tick_read s, [EvReadTemplate])
  | inr e => (Raise e, tick_read s, [EvReadTemplate])
  end.

(** [recipient[k]], a [KeyError] when the column is missing *)
Definition getitem (r : recipient) (k : string) : M string :=
  match lookup k r with
  | Some v => ret v
  | None => raise (Exception ("'" ++ k ++ "'"))
  end.

(** [open(results_file, 'w', newline='')] creates the file, empty. *)
Definition open_results : M unit :=
  emit EvOpenResults ;;
  modify (set_results_file (Some [])).

Definition writerow (r : row) : M unit :=
  emit (EvWriteRow r) ;;
  modify (fun s => set_results_file (option_map (fun rows => rows ++ [r]) (results_file s)) s).

Definition assign_sent_count (n : Z) : M unit :=
  emit (EvSentCount n) ;; modify (set_sent_count n).

Definition assign_last_send_time (t : Q) : M unit :=
  emit (EvLastSendTime t) ;; modify (set_last_send_time t).

(** *** Methods *)

Definition _read_template : M string := read_template_file.

(** The rows of the recipients file as [csv.DictReader] yields them, which
    is [recipients_csv] of the world, or the exception of a file that
    cannot be read.  For a file given by its lines the rows are
    [DictReader] of the lines, below. *)
Definition _read_recipients : M (list recipient) := fun s =>
  match recipients_csv w with
  | inl rs => (Ok rs, s, [EvReadRecipients])
  | inr e => (Raise e, s, [EvReadRecipients])
  end.

Definition _rate_limit : M unit :=
  emit EvRateLimit ;;
  sc <- gets sent_count ;;
  if sc >=? emails_per_batch (rate_limit cfg) then
    for_in (range_down (batch_delay (rate_limit cfg)))
      (fun remaining => time_sleep 1 ;; ret Continue) ;;
    assign_sent_count 0
  else
    current_time <- time_time ;;
    last <- gets last_send_time ;;
    let time_since_last := (current_time - last)%Q in
    if Qltb time_since_last (delay_between_emails (rate_limit cfg)) then
      let wait_time := (delay_between_emails (rate_limit cfg) - time_since_last)%Q in
      time_sleep wait_time
    else ret tt.

Definition _test_smtp_connection : M bool :=
  try_except
    (with_SMTP_SSL (fun server => login server ;; ret true))
    (fun e => raise e).

Definition retries : Z := 3.

(** The body of the [try] in the retry loop, lines 129 to 155. *)
Definition deliver (recipient : recipient) : M unit :=
  to <- getitem recipient "email" ;;
  let msg0 := mkMessage (subject (email cfg)) (from (email cfg)) to in
  html <- read_template_file ;;
  sid <- gets server ;;
  send_message sid (msg0 html) ;;
  to' <- getitem recipient "email" ;;
  writerow [to'; "success"; ""] ;;
  sc <- gets sent_count ;;
  assign_sent_count (sc + 1) ;;
  now <- time_time ;;
  assign_last_send_time now.

Definition attempt_body (recipient : recipient) : M ctl :=
  _rate_limit ;;
  deliver recipient ;;
  ret Break.

(** The two [except] clauses of the retry loop. *)
Definition on_error (attempt : Z) (recipient : recipient) (e : exn) : M ctl :=
  match e with
  | SMTPServerDisconnected _ =>
      if attempt <? retries - 1 then
        time_sleep 5 ;;
        sid <- SMTP_SSL ;;
        modify (set_server sid) ;;
        login sid ;;
        ret Continue
      else raise e
  | _ =>
      let error_msg := str e in
      to <- getitem recipient "email" ;;
      writerow [to; "failed"; error_msg] ;;
      ret Break
  end.

Definition try_attempt (recipient : recipient) (attempt : Z) : M ctl :=
  try_except (attempt_body recipient) (on_error attempt recipient).

(** [for attempt in attempts: try: ... except ...], lines 127 to 172. *)
Definition retry_loop (recipient : recipient) (attempts : list Z) : M unit :=
  for_in attempts (try_attempt recipient).

(** The body of the loop over the recipients, lines 125 to 172. *)
Definition process_recipient (recipient : recipient) : M ctl :=
  getitem recipient "email" ;;
  retry_loop recipient (range retries) ;;
  ret Continue.

Definition send_loop (recipients : list recipient) : M unit :=
  for_in recipients process_recipient.

(** The body of the [with smtplib.SMTP_SSL(...) as server], lines 121 to
    172. *)
Definition session (recipients : list recipient) (server0 : nat) : M unit :=
  modify (set_server server0) ;;
  login server0 ;;
  send_loop recipients.

(** Lines 96 to 179.  [results_dir.mkdir] and the name of the results file
    are left out; the one results file of the run is [results_file]. *)
Definition send_newsletters : M unit :=
  _test_smtp_connection ;;
  template <- _read_template ;;
  recipients <- _read_recipients ;;
  open_results ;;
  writerow header ;;
  try_except
    (with_SMTP_SSL (session recipients))
    (fun e => raise e).

End NewsletterSender.

(** *** The constructor and the entry point *)

(** [_load_config]: [yaml.safe_load] of [config.yml], or the exception of a
    file that is missing or is not YAML.  The file is an input of its
    own. *)
Definition _load_config (config_yml : config + exn) : outcome config :=
  match config_yml with
  | inl cfg => Ok cfg
  | inr e => Raise e
  end.

(** [NewsletterSender()]: the configuration and a sender that has sent
    nothing, lines 24 to 29. *)
Definition __init__ (config_yml : config + exn) : outcome (config * state) :=
  match _load_config config_yml with
  | Ok cfg => Ok (cfg, init)
  | Raise e => Raise e
  end.

(** [main], lines 181 to 189: whatever the constructor or the run raises is
    raised again. *)
Definition main (w : world) (config_yml : config + exn)
  : outcome unit * state * list event :=
  match __init__ config_yml with
  | Ok (cfg, sender) =>
      try_except (send_newsletters w cfg) (fun e => raise e) sender
  | Raise e => (Raise e, init, [])
  end.

(** ** Reading traces *)

(** The durations of the [time.sleep] calls of a trace, in order. *)
Fixpoint pauses (t : list event) : list Q :=
  match t with
  | [] => []
  | EvSleep d :: t' => d :: pauses t'
  | _ :: t' => pauses t'
  end.

(** The messages handed to the server, in order. *)
Fixpoint sends (t : list event) : list message :=
  match t with
  | [] => []
  | EvSend _ m :: t' => m :: sends t'
  | _ :: t' => sends t'
  end.

(** The rows written to the results file, in order. *)
Fixpoint rows_written (t : list event) : list row :=
  match t with
  | [] => []
  | EvWriteRow r :: t' => r :: rows_written t'
  | _ :: t' => rows_written t'
  end.

(** The values assigned to [self.sent_count], in order. *)
Fixpoint counts_assigned (t : list event) : list Z :=
  match t with
  | [] => []
  | EvSentCount n :: t' => n :: counts_assigned t'
  | _ :: t' => counts_assigned t'
  end.

(** The values assigned to [self.last_send_time], in order. *)
Fixpoint stamps_assigned (t : list event) : list Q :=
  match t with
  | [] => []
  | EvLastSendTime x :: t' => x :: stamps_assigned t'
  | _ :: t' => stamps_assigned t'
  end.

Definition is_read (e : event) : bool :=
  match e with EvReadTemplate => true | _ => false end.

(** The sessions opened and the sessions quit, in order. *)
Fixpoint connects (t : list event) : list nat :=
  match t with
  | [] => []
  | EvConnect sid :: t' => sid :: connects t'
  | _ :: t' => connects t'
  end.

Fixpoint quits (t : list event) : list nat :=
  match t with
  | [] => []
  | EvQuit sid :: t' => sid :: quits t'
  | _ :: t' => quits t'
  end.

(** The rows that report a success, and their number in a trace. *)
Definition is_success (line : row) : bool :=
  match line with
  | [_; status; _] => String.eqb status "success"
  | _ => false
  end.

Definition successes (t : list event) : Z :=
  Z.of_nat (List.length (filter is_success (rows_written t))).

(** The number of times the counter was set back to 0. *)
Definition resets (t : list event) : Z :=
  Z.of_nat (count_occ Z.eq_dec (counts_assigned t) 0).

(** The number of rate-limit checks of a trace. *)
Fixpoint checks (t : list event) : Z :=
  match t with
  | [] => 0
  | EvRateLimit :: t' => 1 + checks t'
  | _ :: t' => checks t'
  end.

(** The events of the code around the attempts: connections, the input
    files, the opening of the results file and its header. *)
Definition around (e : event) : bool :=
  match e with
  | EvConnect _ | EvLogin _ | EvQuit _ | EvReadTemplate | EvReadRecipients
  | EvOpenResults => true
  | EvWriteRow line =>
      if list_eq_dec string_dec line header then true else false
  | _ => false
  end.

(** The fields of [self] are the same in both states. *)
Definition same_self (s s' : state) : Prop :=
  sent_count s' = sent_count s /\ last_send_time s' = last_send_time s.

(** A computation relates the state it starts in to the state and the
    trace it leaves. *)
Definition follows {A} (R : state -> state -> list event -> Prop) (m : M A) : Prop :=
  forall s, R s (snd (fst (m s))) (snd (m s)).

(** The trace of a run that stops before the loop over the recipients is a
    beginning of this one. *)
Definition opening (s : state) : list event :=
  [EvConnect (n_connect s); EvLogin (n_connect s); EvQuit (n_connect s);
   EvReadTemplate; EvReadRecipients; EvOpenResults; EvWriteRow header;
   EvConnect (S (n_connect s)); EvLogin (S (n_connect s));
   EvQuit (S (n_connect s))].

(** A message as the run is meant to send it: subject and sender of the
    configuration, and the address of a row of the recipients file. *)
Definition addressed (w : world) (cfg : config) (m : message) : Prop :=
  msg_Subject m = subject (email cfg) /\
  msg_From m = from (email cfg) /\
  exists rs r, recipients_csv w = inl rs /\ In r rs /\
               lookup "email" r = Some (msg_To m).




(** ** States the program reaches *)

(** The state after a delivery to [to] that started in [s]: template read,
    message sent, row written, counter and time stamp updated. *)
Definition delivered (w : world) (to : string) (s : state) : state :=
  set_last_send_time (clock w (n_time s))
    (tick_time
       (set_sent_count (sent_count s + 1)
          (set_results_file
             (option_map (fun rows => rows ++ [[to; "success"; ""]]) (results_file s))
             (tick_send (tick_read s))))).

(** The state after a reconnection that started in [s]. *)
Definition reconnected (s : state) : state :=
  tick_login (set_server (n_connect s) (tick_connect s)).

(** The state after a row has been appended to the results file. *)
Definition recorded (r : row) (s : state) : state :=
  set_results_file (option_map (fun rows => rows ++ [r]) (results_file s)) s.

(** The state and the trace [_rate_limit] leaves when started in [s]. *)
Definition limited (w : world) (cfg : config) (s : state) : state :=
  snd (fst (_rate_limit w cfg s)).
Definition limit_trace (w : world) (cfg : config) (s : state) : list event :=
  snd (_rate_limit w cfg s).

(** The k-th leaving of a [with SMTP_SSL(...)] block does not raise. *)
Definition quit_ok (w : world) (k : nat) : bool :=
  match quit_result w k with
  | None | Some (SMTPServerDisconnected _) => true
  | Some _ => false
  end.

(** Everything before the loop over the recipients went well: the pre-flight
    check, the reading of the template and of the recipients [rs], and the
    opening of the session of the loop. *)
Definition reaches_loop (w : world) (s : state) (rs : list recipient) : Prop :=
  connect_result w (n_connect s) = None /\
  login_result w (n_login s) = None /\
  quit_ok w (n_quit s) = true /\
  (exists html, template_file w (n_read s) = inl html) /\
  recipients_csv w = inl rs /\
  connect_result w (S (n_connect s)) = None /\
  login_result w (S (n_login s)) = None.

(** The state in which the loop over the recipients then starts, and the
    trace up to there, for a run of [send_newsletters] started in [s]. *)
Definition loop_entry (s : state) : state :=
  reconnected
    (recorded header
       (set_results_file (Some [])
          (tick_read (tick_quit (tick_login (tick_connect s)))))).

Definition prologue (s : state) : list event :=
  [EvConnect (n_connect s); EvLogin (n_connect s); EvQuit (n_connect s);
   EvReadTemplate; EvReadRecipients; EvOpenResults; EvWriteRow header;
   EvConnect (S (n_connect s)); EvLogin (S (n_connect s))].

(** ** Properties of whole runs *)

(** Where an attempt stands, as far as a trace tells: nothing under way,
    the rate limiter consulted, or the limiter consulted and the message
    composed (its body read from the template file). *)
Inductive phase : Type := Idle | Limited | Composed.

Definition step (p : phase) (e : event) : option phase :=
  match e with
  | EvRateLimit => Some Limited
  | EvTime _ | EvSleep _ | EvSentCount _ =>
      match p with Limited => Some Limited | _ => Some Idle end
  | EvReadTemplate =>
      match p with Limited => Some Composed | _ => Some Idle end
  | EvSend _ _ =>
      match p with Composed => Some Idle | _ => None end
  | _ => Some Idle
  end.

(** Reading a trace from phase [p]: [None] when a message is sent that is
    not directly preceded by a rate-limit check and the composition of the
    message, else the phase reached. *)
Fixpoint scan (p : phase) (t : list event) : option phase :=
  match t with
  | [] => Some p
  | e :: t' =>
      match step p e with
      | Some p' => scan p' t'
      | None => None
      end
  end.

(** Every send of [t] is guarded, in whatever phase the reading starts. *)
Definition guarded (t : list event) : Prop :=
  forall p, scan p t <> None.

(** The events the rate limiter itself leaves. *)
Definition limiter_event (e : event) : bool :=
  match e with
  | EvTime _ | EvSleep _ | EvSentCount _ => true
  | _ => false
  end.

(** Events that neither send nor assign the counter. *)
Definition quiet (e : event) : bool :=
  match e with
  | EvSend _ _ | EvSentCount _ => false
  | _ => true
  end.

(** A computation keeps a property [I] of states and produces traces with
    property [T]. *)
Definition keeps {A} (I : state -> Prop) (T : list event -> Prop) (m : M A) : Prop :=
  forall s, I s -> I (snd (fst (m s))) /\ T (snd (m s)).

(** A row of the results file that reports on recipient [r]. *)
Definition outcome_of (r : recipient) (line : row) : Prop :=
  exists to status error_message,
    lookup "email" r = Some to /\
    line = [to; status; error_message] /\
    (status = "success" \/ status = "failed").

(** The attempts of a retry loop end with the last one allowed. *)
Definition ends_with_last (attempts : list Z) : Prop :=
  attempts <> [] /\ last attempts 0 = retries - 1.

(** ** Worlds and inputs for the scenarios *)

Definition example_config : config :=
  mkConfig (mkSmtp "smtp.x.com" 465 "user" "secret")
           (mkEmail "News" "news@x.com")
           (mkRate 2 10 1%Q).

Definition to_ (address : string) : recipient :=
  [("name", "Reader"); ("email", address)].

(** A world in which every call succeeds, the template reads ["<p>hi</p>"]
    and the clock advances by one second per reading. *)
Definition calm (rs : list recipient) : world :=
  mkWorld (fun k => inject_Z (1000 + Z.of_nat k))
          (fun _ => None) (fun _ => None) (fun _ => None) (fun _ => None)
          (fun _ => inl "<p>hi</p>") (inl rs).

(** The k-th [send_message] of [w] fails with [e]. *)
Definition failing_send (k : nat) (e : exn) (w : world) : world :=
  mkWorld (clock w) (connect_result w) (login_result w) (quit_result w)
          (fun i => if Nat.eqb i k then Some e else send_result w i)
          (template_file w) (recipients_csv w).

(** The k-th [login] of [w] fails with [e]. *)
Definition failing_login (k : nat) (e : exn) (w : world) : world :=
  mkWorld (clock w) (connect_result w)
          (fun i => if Nat.eqb i k then Some e else login_result w i)
          (quit_result w) (send_result w) (template_file w) (recipients_csv w).

(** From its k-th reading on, the template file holds [html]. *)
Definition edited_template (k : nat) (html : string) (w : world) : world :=
  mkWorld (clock w) (connect_result w) (login_result w) (quit_result w)
          (send_result w)
          (fun i => if Nat.leb k i then inl html else template_file w i)
          (recipients_csv w).

Definition three_readers : list recipient :=
  [to_ "a@x.com"; to_ "b@x.com"; to_ "c@x.com"].

(** All sends succeed. *)
Definition all_fine : world := calm three_readers.

(** The first send is refused: "mailbox unavailable". *)
Definition mailbox_unavailable : world :=
  failing_send 0 (Exception "mailbox unavailable")
    (calm [to_ "bad@x.com"; to_ "a@x.com"]).

(** The first send fails with an exception that carries no text, as
    [Exception()] or [MemoryError()] do. *)
Definition mute_failure : world :=
  failing_send 0 (Exception "") (calm [to_ "bad@x.com"]).

(** The connection drops on the first two sends. *)
Definition drops_twice : world :=
  failing_send 0 (SMTPServerDisconnected "Connection unexpectedly closed")
    (failing_send 1 (SMTPServerDisconnected "Connection unexpectedly closed")
       (calm [to_ "c@x.com"])).

(** The connection drops on every send. *)
Definition always_drops : world :=
  mkWorld (fun k => inject_Z (1000 + Z.of_nat k))
          (fun _ => None) (fun _ => None) (fun _ => None)
          (fun _ => Some (SMTPServerDisconnected "Connection unexpectedly closed"))
          (fun _ => inl "<p>hi</p>") (inl [to_ "c@x.com"; to_ "d@x.com"]).

(** The server refuses the credentials at the pre-flight check. *)
Definition bad_credentials : world :=
  failing_login 0 (SMTPAuthenticationError "535 authentication failed") all_fine.

(** The template file is edited while the first recipient is served: the
    read at the start and the read for the first recipient see the old
    content, later reads the new one. *)
Definition template_edited : world :=
  edited_template 2 "<p>new</p>" (calm [to_ "a@x.com"; to_ "b@x.com"]).

(** The first send succeeds, the connection drops on every later one. *)
Definition drops_after_first : world :=
  mkWorld (fun k => inject_Z (1000 + Z.of_nat k))
          (fun _ => None) (fun _ => None) (fun _ => None)
          (fun i => if Nat.eqb i 0 then None
                    else Some (SMTPServerDisconnected "Connection unexpectedly closed"))
          (fun _ => inl "<p>hi</p>") (inl three_readers).

(** The connection drops on every send and no connection can be made. *)
Definition unreachable : world :=
  mkWorld (fun k => inject_Z (1000 + Z.of_nat k))
          (fun _ => Some (Exception "[Errno 111] Connection refused"))
          (fun _ => None) (fun _ => None)
          (fun _ => Some (SMTPServerDisconnected "Connection unexpectedly closed"))
          (fun _ => inl "<p>hi</p>") (inl three_readers).

(** There is no template file. *)
Definition missing_template : world :=
  mkWorld (fun k => inject_Z (1000 + Z.of_nat k))
          (fun _ => None) (fun _ => None) (fun _ => None) (fun _ => None)
          (fun _ => inr (Exception "[Errno 2] No such file or directory: 'template.html'"))
          (inl three_readers).

(** [emails_per_batch: 0] *)
Definition zero_batch_config : config :=
  mkConfig (mkSmtp "smtp.x.com" 465 "user" "secret")
           (mkEmail "News" "news@x.com")
           (mkRate 0 10 1%Q).

(** ** The recipients file *)

(** [csv.DictReader] over what [csv.reader] yields for the file: the first
    line names the fields, blank lines are skipped, and every other line
    becomes a dict from the names to its values.  This is the dict of a
    line that has as many values as there are names, under names that
    differ.  For a shorter line [DictReader] adds values [None], and for a
    longer one a list under the key [None]; a [recipient] holds neither. *)
Definition DictReader (lines : list (list string)) : list recipient :=
  match lines with
  | [] => []
  | fieldnames :: rows =>
      map (combine fieldnames)
          (filter (fun line => match line with [] => false | _ => true end) rows)
  end.

(** The files [DictReader] is modelled for. *)
Definition rectangular (lines : list (list string)) : Prop :=
  match lines with
  | [] => True
  | fieldnames :: rows =>
      NoDup fieldnames /\
      Forall (fun line => line = [] \/ List.length line = List.length fieldnames) rows
  end.

(** A recipients file whose header names no column [email]. *)
Definition no_email_column : list (list string) :=
  [["name"; "address"]; ["Reader"; "a@x.com"]; []; ["Reader"; "b@x.com"]].

(** * The rate limiter in double precision

    Lines 53 to 72 once more, on the numbers the interpreter computes with.
    [time.time()] returns a double; [last_send_time] is the integer 0 of
    [__init__] or such a double; [delay_between_emails] is taken as a
    double (an integer of the YAML file stands for the double of its
    value, which is exact below 2^53).  Subtraction and [<] are those of
    IEEE 754 binary64, the primitive floats of the kernel.

    [time.sleep] is the one of CPython: the duration is converted to
    nanoseconds, rounded away from zero, and must fit a signed 64-bit
    integer; a NaN and a negative duration are refused with [ValueError],
    a duration of 2^63 nanoseconds or more with [OverflowError].  The
    countdown of a batch pause sleeps the integer 1. *)

Module Doubles.

Import PrimFloat.

Record rate_limit_config := {
  emails_per_batch : Z; batch_delay : Z; delay_between_emails : float }.

(** The two fields of [self] the limiter reads. *)
Record sender := { sent_count : Z; last_send_time : float }.

Inductive event : Type :=
| EvTime (t : float)                  (* time.time() returned t *)
| EvSleep (secs : float)              (* time.sleep(secs) slept *)
| EvSentCount (n : Z).                (* self.sent_count was assigned n *)

(** The exception [time.sleep(secs)] raises instead of sleeping, if any. *)
Definition refusal (secs : float) : option exn :=
  if is_nan secs then Some (Exception "Invalid value NaN (not a number)")
  else
    let ns := (secs * 1e9)%float in
    if ((-0x1p63 <=? ns)%float && (ns <? 0x1p63)%float)%bool then
      if (ns <? 0)%float then Some (Exception "sleep length must be non-negative")
      else None
    else Some (Exception "timestamp too large to convert to C _PyTime_t").

Definition time_sleep (secs : float) : outcome unit * list event :=
  match refusal secs with
  | Some e => (Raise e, [])
  | None => (Ok tt, [EvSleep secs])
  end.

(** [for remaining in range(batch_delay, 0, -1): time.sleep(1)] *)
Fixpoint countdown (remaining : list Z) : outcome unit * list event :=
  match remaining with
  | [] => (Ok tt, [])
  | _ :: rest =>
      match time_sleep 1 with
      | (Ok _, t1) => let '(r, t2) := countdown rest in (r, t1 ++ t2)
      | (Raise e, t1) => (Raise e, t1)
      end
  end.

(** [time_time] is what [time.time()] returns when it is called. *)
Definition _rate_limit (config : rate_limit_config) (time_time : float)
    (self : sender) : outcome unit * sender * list event :=
  if sent_count self >=? emails_per_batch config then
    match countdown (range_down (batch_delay config)) with
    | (Ok _, t) =>
        (Ok tt, {| sent_count := 0; last_send_time := last_send_time self |},
         t ++ [EvSentCount 0])
    | (Raise e, t) => (Raise e, self, t)
    end
  else
    let current_time := time_time in
    let time_since_last := (current_time - last_send_time self)%float in
    if (time_since_last <? delay_between_emails config)%float then
      let wait_time := (delay_between_emails config - time_since_last)%float in
      match time_sleep wait_time with
      | (Ok _, t) => (Ok tt, self, EvTime current_time :: t)
      | (Raise e, t) => (Raise e, self, EvTime current_time :: t)
      end
    else (Ok tt, self, [EvTime current_time]).

(** The durations slept, in order. *)
Fixpoint pauses (t : list event) : list float :=
  match t with
  | [] => []
  | EvSleep secs :: t' => secs :: pauses t'
  | _ :: t' => pauses t'
  end.

(** The scenarios: a sender that has sent nothing; a delay of one second;
    a delay of 580 years. *)
Definition fresh : sender := {| sent_count := 0; last_send_time := 0 |}.









End Doubles.

(** ** Basic facts *)

(** Projections of updated states. *)
Ltac fields :=
  cbn [sent_count last_send_time server results_file
       n_time n_connect n_login n_quit n_send n_read
       set_sent_count set_last_send_time set_server set_results_file
       tick_time tick_connect tick_login tick_quit tick_send tick_read].

(** An effect's outcome: the counter untouched, one quiet event. *)
Ltac one_quiet_event :=
  cbn; split; [reflexivity | eexists; split; [|reflexivity]; reflexivity].

(** The facts about a run that stopped on the way to the loop. *)
Ltac stopped :=
  split; [reflexivity|];
  split; [cbn; tauto|];
  split; [split; reflexivity|];
  split; [reflexivity|];
  split; [cbn; first [discriminate | intros _; eexists; reflexivity]|];
  let F1 := fresh in let F2 := fresh in let F3 := fresh in
  let F4 := fresh in let F5 := fresh in let F6 := fresh in
  let F7 := fresh in let h := fresh in let rs0 := fresh in
  intros rs0 (F1 & F2 & F3 & (h & F4) & F5 & F6 & F7); congruence.

(** An effect's outcome: the fields of [self] untouched, one event of the
    code around the attempts. *)
Ltac one_around_event :=
  cbn; split; [split; reflexivity | eexists; split; [|reflexivity]; reflexivity].

Lemma Qltb_lt (x y : Q) : Qltb x y = true <-> (x < y)%Q.
Proof.
  unfold Qltb. rewrite Qlt_alt.
  destruct (x ?= y)%Q; split; intros H; congruence.
Qed.

Lemma pauses_app (t1 t2 : list event) : pauses (t1 ++ t2) = pauses t1 ++ pauses t2.
Proof.
  induction t1 as [|e t1 IH]; simpl; [reflexivity|].
  destruct e; simpl; rewrite ?IH; reflexivity.
Qed.

Lemma sends_app (t1 t2 : list event) : sends (t1 ++ t2) = sends t1 ++ sends t2.
Proof.
  induction t1 as [|e t1 IH]; simpl; [reflexivity|].
  destruct e; simpl; rewrite ?IH; reflexivity.
Qed.

Lemma rows_written_app (t1 t2 : list event) :
  rows_written (t1 ++ t2) = rows_written t1 ++ rows_written t2.
Proof.
  induction t1 as [|e t1 IH]; simpl; [reflexivity|].
  destruct e; simpl; rewrite ?IH; reflexivity.
Qed.

Lemma counts_assigned_app (t1 t2 : list event) :
  counts_assigned (t1 ++ t2) = counts_assigned t1 ++ counts_assigned t2.
Proof.
  induction t1 as [|e t1 IH]; simpl; [reflexivity|].
  destruct e; simpl; rewrite ?IH; reflexivity.
Qed.

Lemma stamps_assigned_app (t1 t2 : list event) :
  stamps_assigned (t1 ++ t2) = stamps_assigned t1 ++ stamps_assigned t2.
Proof.
  induction t1 as [|e t1 IH]; simpl; [reflexivity|].
  destruct e; simpl; rewrite ?IH; reflexivity.
Qed.

Lemma pauses_sleeps (n : nat) (d : Q) : pauses (repeat (EvSleep d) n) = repeat d n.
Proof. induction n as [|n IH]; simpl; [|rewrite IH]; reflexivity. Qed.

Lemma range_down_length (n : Z) : List.length (range_down n) = Z.to_nat n.
Proof. unfold range_down. rewrite length_map, length_seq. reflexivity. Qed.

(** ** Scanning traces *)

Lemma scan_app (p : phase) (t1 t2 : list event) :
  scan p (t1 ++ t2) =
  match scan p t1 with
  | Some p' => scan p' t2
  | None => None
  end.
Proof.
  revert p. induction t1 as [|e t1 IH]; intros p; cbn [scan app]; [reflexivity|].
  destruct (step p e); [apply IH | reflexivity].
Qed.

Lemma guarded_nil : guarded [].
Proof. intros p. discriminate. Qed.

Lemma guarded_app (t1 t2 : list event) :
  guarded t1 -> guarded t2 -> guarded (t1 ++ t2).
Proof.
  intros H1 H2 p. rewrite scan_app. specialize (H1 p).
  destruct (scan p t1); [apply H2 | exact H1].
Qed.

Lemma guarded_quiet (e : event) : quiet e = true -> guarded [e].
Proof. destruct e; intros He p; try discriminate He; destruct p; discriminate. Qed.

Lemma scan_sleeps (n : nat) (d : Q) (t : list event) :
  scan Limited (repeat (EvSleep d) n ++ t) = scan Limited t.
Proof. induction n as [|n IH]; [reflexivity | exact IH]. Qed.

(** A trace read up to the point where the message is composed ends with a
    rate-limit check, events of the limiter, and the read of the template. *)
Lemma scan_composed (t : list event) (p : phase) :
  scan p t = Some Composed ->
  (p = Composed /\ t = []) \/
  (p = Limited /\ exists tl, t = tl ++ [EvReadTemplate] /\
                             Forall (fun e => limiter_event e = true) tl) \/
  (exists t0 tl, t = t0 ++ EvRateLimit :: tl ++ [EvReadTemplate] /\
                 Forall (fun e => limiter_event e = true) tl).
Proof.
  revert p. induction t as [|e t IH]; intros p H.
  - inversion H; subst. left. auto.
  - cbn [scan] in H. destruct (step p e) as [p'|] eqn:Hstep; [|discriminate].
    destruct (IH p' H) as [[-> ->] | [(-> & tl & -> & Hall) | (t0 & tl & -> & Hall)]].
    + destruct e; destruct p; cbn in Hstep; try discriminate.
      right. left. split; [reflexivity|]. exists []. auto.
    + destruct e; destruct p; cbn in Hstep; try discriminate;
        first [ right; left; split; [reflexivity|];
                eexists (_ :: tl); split; [reflexivity|];
                constructor; [reflexivity | exact Hall]
              | right; right; exists [], tl; split; [reflexivity | exact Hall] ].
    + right. right. exists (e :: t0), tl. auto.
Qed.

(** ** Invariants of runs

    What holds of every attempt holds of the run, for properties of the
    counter and of traces that the code around the attempts cannot break. *)

Section Invariants.

Variable I : state -> Prop.
Variable T : list event -> Prop.
Hypothesis T_nil : T [].
Hypothesis T_app : forall t1 t2, T t1 -> T t2 -> T (t1 ++ t2).
Hypothesis T_quiet : forall e, quiet e = true -> T [e].
Hypothesis I_sent_count : forall s s', sent_count s' = sent_count s -> I s -> I s'.

Lemma keeps_ret {A} (a : A) : keeps I T (ret a).
Proof. intros s Hs. cbn. auto. Qed.

Lemma keeps_raise {A} (e : exn) : keeps I T (@raise A e).
Proof. intros s Hs. cbn. auto. Qed.

Lemma keeps_bind {A B} (m : M A) (k : A -> M B) :
  keeps I T m -> (forall a, keeps I T (k a)) -> keeps I T (bind m k).
Proof.
  intros Hm Hk s Hs. unfold bind. specialize (Hm s Hs).
  destruct (m s) as [[[a|e] s1] t1]; cbn [fst snd] in *; [|exact Hm].
  destruct Hm as [Hs1 Ht1]. specialize (Hk a s1 Hs1).
  destruct (k a s1) as [[r s2] t2]; cbn [fst snd] in *.
  destruct Hk as [Hs2 Ht2]. auto.
Qed.

Lemma keeps_try_except {A} (m : M A) (h : exn -> M A) :
  keeps I T m -> (forall e, keeps I T (h e)) -> keeps I T (try_except m h).
Proof.
  intros Hm Hh s Hs. unfold try_except. specialize (Hm s Hs).
  destruct (m s) as [[[a|e] s1] t1]; cbn [fst snd] in *; [exact Hm|].
  destruct Hm as [Hs1 Ht1]. specialize (Hh e s1 Hs1).
  destruct (h e s1) as [[r s2] t2]; cbn [fst snd] in *.
  destruct Hh as [Hs2 Ht2]. auto.
Qed.

Lemma keeps_finally {A} (m : M A) (f : M unit) :
  keeps I T m -> keeps I T f -> keeps I T (finally m f).
Proof.
  intros Hm Hf s Hs. unfold finally. specialize (Hm s Hs).
  destruct (m s) as [[r s1] t1]; cbn [fst snd] in *.
  destruct Hm as [Hs1 Ht1]. specialize (Hf s1 Hs1).
  destruct (f s1) as [[[[]|e] s2] t2]; cbn [fst snd] in *;
    destruct Hf as [Hs2 Ht2]; auto.
Qed.

Lemma keeps_for_in {A} (xs : list A) (body : A -> M ctl) :
  (forall x, keeps I T (body x)) -> keeps I T (for_in xs body).
Proof.
  intros Hbody. induction xs as [|x xs IH]; cbn [for_in].
  - apply keeps_ret.
  - apply keeps_bind; [apply Hbody|].
    intros [|]; [exact IH | apply keeps_ret].
Qed.

(** An effect that leaves the counter alone and one quiet event behind. *)
Lemma keeps_effect {A} (m : M A) :
  (forall s, sent_count (snd (fst (m s))) = sent_count s /\
             exists e, quiet e = true /\ snd (m s) = [e]) ->
  keeps I T m.
Proof.
  intros Hm s Hs. destruct (Hm s) as (Hc & e & He & Ht).
  split; [exact (I_sent_count _ _ Hc Hs)|]. rewrite Ht. auto.
Qed.

Section Program.

Variable w : world.
Variable cfg : config.

Lemma keeps_SMTP_SSL : keeps I T (SMTP_SSL w).
Proof.
  apply keeps_effect. intros s. unfold SMTP_SSL.
  destruct (connect_result w (n_connect s)); one_quiet_event.
Qed.

Lemma keeps_login (sid : nat) : keeps I T (login w sid).
Proof.
  apply keeps_effect. intros s. unfold login.
  destruct (login_result w (n_login s)); one_quiet_event.
Qed.

Lemma keeps_smtp_exit (sid : nat) : keeps I T (smtp_exit w sid).
Proof.
  apply keeps_effect. intros s. unfold smtp_exit.
  destruct (quit_result w (n_quit s)) as [[m|m|m]|]; one_quiet_event.
Qed.

Lemma keeps_read_template_file : keeps I T (read_template_file w).
Proof.
  apply keeps_effect. intros s. unfold read_template_file.
  destruct (template_file w (n_read s)); one_quiet_event.
Qed.

Lemma keeps_read_recipients : keeps I T (_read_recipients w).
Proof.
  apply keeps_effect. intros s. unfold _read_recipients.
  destruct (recipients_csv w); one_quiet_event.
Qed.

Lemma keeps_open_results : keeps I T open_results.
Proof. apply keeps_effect. intros s. one_quiet_event. Qed.

Lemma keeps_writerow (r : row) : keeps I T (writerow r).
Proof. apply keeps_effect. intros s. one_quiet_event. Qed.

Lemma keeps_getitem (r : recipient) (k : string) : keeps I T (getitem r k).
Proof.
  unfold getitem. destruct (lookup k r); [apply keeps_ret | apply keeps_raise].
Qed.

Lemma keeps_set_server (sid : nat) : keeps I T (modify (set_server sid)).
Proof.
  intros s Hs. cbn.
  split; [exact (I_sent_count s (set_server sid s) eq_refl Hs) | exact T_nil].
Qed.

Lemma keeps_with_SMTP_SSL {A} (body : nat -> M A) :
  (forall sid, keeps I T (body sid)) -> keeps I T (with_SMTP_SSL w body).
Proof.
  intros Hbody. unfold with_SMTP_SSL.
  apply keeps_bind; [apply keeps_SMTP_SSL|].
  intros sid. apply keeps_finally; [apply Hbody | apply keeps_smtp_exit].
Qed.

Lemma keeps_test_smtp_connection : keeps I T (_test_smtp_connection w).
Proof.
  unfold _test_smtp_connection.
  apply keeps_try_except; [|intros e; apply keeps_raise].
  apply keeps_with_SMTP_SSL. intros sid.
  apply keeps_bind; [apply keeps_login | intros _; apply keeps_ret].
Qed.

(** What every attempt keeps, a run keeps. *)
Lemma keeps_send_newsletters :
  (forall r a, keeps I T (try_attempt w cfg r a)) ->
  keeps I T (send_newsletters w cfg).
Proof.
  intros Hattempt. unfold send_newsletters.
  apply keeps_bind; [apply keeps_test_smtp_connection | intros _].
  apply keeps_bind; [apply keeps_read_template_file | intros _].
  apply keeps_bind; [apply keeps_read_recipients | intros rs].
  apply keeps_bind; [apply keeps_open_results | intros _].
  apply keeps_bind; [apply keeps_writerow | intros _].
  apply keeps_try_except; [|intros e; apply keeps_raise].
  apply keeps_with_SMTP_SSL. intros sid. unfold session.
  apply keeps_bind; [apply keeps_set_server | intros _].
  apply keeps_bind; [apply keeps_login | intros _].
  unfold send_loop. apply keeps_for_in. intros r. unfold process_recipient.
  apply keeps_bind; [apply keeps_getitem | intros _].
  apply keeps_bind; [|intros _; apply keeps_ret].
  unfold retry_loop. apply keeps_for_in. intros a. apply Hattempt.
Qed.

End Program.

End Invariants.

(** ** Runs that end normally *)

Lemma bind_ok {A B} (m : M A) (k : A -> M B) (s s' : state) (b : B) (t : list event) :
  bind m k s = (Ok b, s', t) ->
  exists a s1 t1 t2,
    m s = (Ok a, s1, t1) /\ k a s1 = (Ok b, s', t2) /\ t = t1 ++ t2.
Proof.
  unfold bind. destruct (m s) as [[[a|e] s1] t1] eqn:Hm; [|discriminate].
  destruct (k a s1) as [[r s2] t2] eqn:Hk. intros H; inversion H; subst.
  exists a, s1, t1, t2. auto.
Qed.

Lemma reraise_ok {A} (m : M A) (s s' : state) (a : A) (t : list event) :
  try_except m (fun e => raise e) s = (Ok a, s', t) -> m s = (Ok a, s', t).
Proof.
  unfold try_except. destruct (m s) as [[[a'|e] s1] t1]; [auto|].
  cbn. discriminate.
Qed.

Lemma finally_ok {A} (m : M A) (f : M unit) (s s' : state) (a : A) (t : list event) :
  finally m f s = (Ok a, s', t) ->
  exists s1 t1 t2, m s = (Ok a, s1, t1) /\ f s1 = (Ok tt, s', t2) /\ t = t1 ++ t2.
Proof.
  unfold finally. destruct (m s) as [[r s1] t1] eqn:Hm.
  destruct (f s1) as [[[[]|e] s2] t2] eqn:Hf; [|discriminate].
  intros H; inversion H; subst. exists s1, t1, t2. auto.
Qed.

Section Facts.

Variable w : world.
Variable cfg : config.

(** The countdown loop sleeps one second per item and does nothing else. *)
Lemma countdown_run (xs : list Z) (s : state) :
  for_in xs (fun _ => time_sleep 1 ;; ret Continue) s
  = (Ok tt, s, repeat (EvSleep 1) (List.length xs)).
Proof.
  induction xs as [|x xs IH]; [reflexivity|].
  cbn [for_in List.length repeat]. unfold bind at 1. cbn.
  rewrite IH. reflexivity.
Qed.

(** [_rate_limit] in closed form. *)
Lemma rate_limit_run (s : state) :
  _rate_limit w cfg s =
  if sent_count s >=? emails_per_batch (rate_limit cfg) then
    (Ok tt, set_sent_count 0 s,
     EvRateLimit :: repeat (EvSleep 1) (Z.to_nat (batch_delay (rate_limit cfg)))
       ++ [EvSentCount 0])
  else
    let now := clock w (n_time s) in
    let since := (now - last_send_time s)%Q in
    if Qltb since (delay_between_emails (rate_limit cfg)) then
      (Ok tt, tick_time s,
       [EvRateLimit; EvTime now;
        EvSleep (delay_between_emails (rate_limit cfg) - since)])
    else (Ok tt, tick_time s, [EvRateLimit; EvTime now]).
Proof.
  unfold _rate_limit. unfold bind at 1. cbn [emit].
  unfold bind at 1. cbn [gets].
  destruct (sent_count s >=? emails_per_batch (rate_limit cfg)).
  - unfold bind at 1. rewrite countdown_run, range_down_length.
    cbn. reflexivity.
  - cbn. destruct (Qltb _ _); reflexivity.
Qed.

(** [deliver] in closed form: the three places where it can fail, and what
    it leaves behind when it does not. *)
Lemma deliver_run (r : recipient) (s : state) :
  deliver w cfg r s =
  match lookup "email" r with
  | None => (Raise (Exception "'email'"), s, [])
  | Some to =>
      match template_file w (n_read s) with
      | inr e => (Raise e, tick_read s, [EvReadTemplate])
      | inl html =>
          let m := mkMessage (subject (email cfg)) (from (email cfg)) to html in
          match send_result w (n_send s) with
          | Some e =>
              (Raise e, tick_send (tick_read s), [EvReadTemplate; EvSend (server s) m])
          | None =>
              (Ok tt, delivered w to s,
               [EvReadTemplate; EvSend (server s) m;
                EvWriteRow [to; "success"; ""];
                EvSentCount (sent_count s + 1);
                EvTime (clock w (n_time s));
                EvLastSendTime (clock w (n_time s))])
          end
      end
  end.
Proof.
  unfold deliver, getitem.
  destruct (lookup "email" r) as [to|]; [|reflexivity].
  unfold bind at 1. cbn [ret app].
  unfold bind at 1. unfold read_template_file at 1.
  destruct (template_file w (n_read s)) as [html|e]; [|reflexivity].
  unfold bind at 1. cbn [gets].
  unfold bind at 1. unfold send_message at 1. cbn [n_send tick_read].
  destruct (send_result w (n_send s)) as [e|]; [reflexivity|].
  reflexivity.
Qed.

(** The rate limiter always returns. *)
Lemma rate_limit_total (s : state) :
  _rate_limit w cfg s = (Ok tt, limited w cfg s, limit_trace w cfg s).
Proof.
  unfold limited, limit_trace. rewrite rate_limit_run.
  destruct (sent_count s >=? _); [reflexivity|].
  cbv zeta. destruct (Qltb _ _); reflexivity.
Qed.

(** What the rate limiter does not touch. *)
Lemma limited_frame (s : state) :
  last_send_time (limited w cfg s) = last_send_time s /\
  server (limited w cfg s) = server s /\
  results_file (limited w cfg s) = results_file s /\
  n_send (limited w cfg s) = n_send s /\
  n_read (limited w cfg s) = n_read s /\
  n_connect (limited w cfg s) = n_connect s /\
  n_login (limited w cfg s) = n_login s.
Proof.
  unfold limited. rewrite rate_limit_run.
  destruct (sent_count s >=? _); [cbn; tauto|].
  cbv zeta. destruct (Qltb _ _); cbn; tauto.
Qed.

(** After the check the counter is the old one, or 0 after a batch pause. *)
Lemma limited_sent_count (s : state) :
  sent_count (limited w cfg s) =
  if sent_count s >=? emails_per_batch (rate_limit cfg) then 0 else sent_count s.
Proof.
  unfold limited. rewrite rate_limit_run.
  destruct (sent_count s >=? _); [reflexivity|].
  cbv zeta. destruct (Qltb _ _); reflexivity.
Qed.

Lemma limit_trace_silent (s : state) :
  sends (limit_trace w cfg s) = [] /\
  rows_written (limit_trace w cfg s) = [] /\
  stamps_assigned (limit_trace w cfg s) = [].
Proof.
  unfold limit_trace. rewrite rate_limit_run.
  destruct (sent_count s >=? _).
  - cbn [snd sends rows_written stamps_assigned].
    rewrite sends_app, rows_written_app, stamps_assigned_app. cbn.
    rewrite !app_nil_r.
    generalize (Z.to_nat (batch_delay (rate_limit cfg))) as n.
    induction n as [|n (IH1 & IH2 & IH3)]; cbn; auto.
  - cbv zeta. destruct (Qltb _ _); cbn; auto.
Qed.

Lemma limit_trace_counts (s : state) :
  counts_assigned (limit_trace w cfg s) =
  if sent_count s >=? emails_per_batch (rate_limit cfg) then [0] else [].
Proof.
  unfold limit_trace. rewrite rate_limit_run.
  destruct (sent_count s >=? _).
  - cbn [snd counts_assigned]. rewrite counts_assigned_app. cbn.
    generalize (Z.to_nat (batch_delay (rate_limit cfg))) as n.
    induction n as [|n IH]; cbn; auto.
  - cbv zeta. destruct (Qltb _ _); reflexivity.
Qed.

Lemma attempt_body_run (r : recipient) (s : state) :
  attempt_body w cfg r s =
  match deliver w cfg r (limited w cfg s) with
  | (Ok _, s1, t1) => (Ok Break, s1, limit_trace w cfg s ++ t1)
  | (Raise e, s1, t1) => (Raise e, s1, limit_trace w cfg s ++ t1)
  end.
Proof.
  unfold attempt_body. unfold bind at 1. rewrite rate_limit_total.
  unfold bind at 1.
  destruct (deliver w cfg r (limited w cfg s)) as [[[[]|e] s1] t1].
  - cbn. rewrite app_nil_r. reflexivity.
  - reflexivity.
Qed.

(** The two [except] clauses in closed form. *)
Lemma on_error_run (a : Z) (r : recipient) (e : exn) (s : state) :
  on_error w a r e s =
  if is_disconnected e then
    if a <? retries - 1 then
      match connect_result w (n_connect s) with
      | Some e' => (Raise e', tick_connect s, [EvSleep 5; EvConnect (n_connect s)])
      | None =>
          match login_result w (n_login s) with
          | Some e' =>
              (Raise e', reconnected s,
               [EvSleep 5; EvConnect (n_connect s); EvLogin (n_connect s)])
          | None =>
              (Ok Continue, reconnected s,
               [EvSleep 5; EvConnect (n_connect s); EvLogin (n_connect s)])
          end
      end
    else (Raise e, s, [])
  else
    match lookup "email" r with
    | Some to =>
        (Ok Break, recorded [to; "failed"; str e] s,
         [EvWriteRow [to; "failed"; str e]])
    | None => (Raise (Exception "'email'"), s, [])
    end.
Proof.
  assert (Hother : forall e0,
    (to <- getitem r "email" ;; writerow [to; "failed"; str e0] ;; ret Break) s =
    match lookup "email" r with
    | Some to =>
        (Ok Break, recorded [to; "failed"; str e0] s,
         [EvWriteRow [to; "failed"; str e0]])
    | None => (Raise (Exception "'email'"), s, [])
    end).
  { intros e0. unfold getitem. destruct (lookup "email" r); reflexivity. }
  destruct e as [m|m|m]; cbn [on_error is_disconnected]; try apply Hother.
  destruct (a <? retries - 1); [|reflexivity].
  unfold bind at 1. cbn [time_sleep emit].
  unfold bind at 1. unfold SMTP_SSL at 1.
  destruct (connect_result w (n_connect s)); [reflexivity|].
  unfold bind at 1. cbn [modify].
  unfold bind at 1. unfold login at 1. cbn [n_login set_server tick_connect].
  destruct (login_result w (n_login s)); reflexivity.
Qed.

(** *** The loops, one step at a time *)

Lemma retry_loop_cons (r : recipient) (a : Z) (rest : list Z) (s : state) :
  retry_loop w cfg r (a :: rest) s =
  match try_attempt w cfg r a s with
  | (Ok Break, s1, t1) => (Ok tt, s1, t1)
  | (Ok Continue, s1, t1) =>
      let '(res, s2, t2) := retry_loop w cfg r rest s1 in (res, s2, t1 ++ t2)
  | (Raise e, s1, t1) => (Raise e, s1, t1)
  end.
Proof.
  unfold retry_loop. cbn [for_in]. unfold bind at 1.
  destruct (try_attempt w cfg r a s) as [[[[]|e] s1] t1]; try reflexivity.
  cbn. rewrite app_nil_r. reflexivity.
Qed.

Lemma process_recipient_run (r : recipient) (s : state) :
  process_recipient w cfg r s =
  match lookup "email" r with
  | None => (Raise (Exception "'email'"), s, [])
  | Some _ =>
      match retry_loop w cfg r (range retries) s with
      | (Ok _, s1, t1) => (Ok Continue, s1, t1)
      | (Raise e, s1, t1) => (Raise e, s1, t1)
      end
  end.
Proof.
  unfold process_recipient, getitem.
  destruct (lookup "email" r); [|reflexivity].
  unfold bind at 1. cbn [ret app]. unfold bind at 1.
  destruct (retry_loop w cfg r (range retries) s) as [[[[]|e] s1] t1].
  - cbn. rewrite app_nil_r. reflexivity.
  - reflexivity.
Qed.

Lemma send_loop_cons (r : recipient) (rs : list recipient) (s : state) :
  send_loop w cfg (r :: rs) s =
  match process_recipient w cfg r s with
  | (Ok _, s1, t1) =>
      let '(res, s2, t2) := send_loop w cfg rs s1 in (res, s2, t1 ++ t2)
  | (Raise e, s1, t1) => (Raise e, s1, t1)
  end.
Proof.
  unfold send_loop. cbn [for_in]. unfold bind at 1.
  rewrite process_recipient_run.
  destruct (lookup "email" r); [|reflexivity].
  destruct (retry_loop w cfg r (range retries) s) as [[[[]|e] s1] t1]; reflexivity.
Qed.

(** A retry loop that ends normally hands over to the next recipient. *)
Lemma advance (r : recipient) (to : string) (rs : list recipient)
    (s s1 : state) (t1 : list event) :
  lookup "email" r = Some to ->
  retry_loop w cfg r (range retries) s = (Ok tt, s1, t1) ->
  send_loop w cfg (r :: rs) s =
  let '(res, s2, t2) := send_loop w cfg rs s1 in (res, s2, t1 ++ t2).
Proof.
  intros Hto Hloop.
  rewrite send_loop_cons, process_recipient_run, Hto, Hloop. reflexivity.
Qed.

(** A retry loop that raises ends the loop over the recipients. *)
Lemma abort (r : recipient) (to : string) (rs : list recipient)
    (s s1 : state) (t1 : list event) (e : exn) :
  lookup "email" r = Some to ->
  retry_loop w cfg r (range retries) s = (Raise e, s1, t1) ->
  send_loop w cfg (r :: rs) s = (Raise e, s1, t1).
Proof.
  intros Hto Hloop.
  rewrite send_loop_cons, process_recipient_run, Hto, Hloop. reflexivity.
Qed.

(** *** Attempts that fail *)

Lemma deliver_raise (r : recipient) (s s1 : state) (t : list event) (e : exn) :
  deliver w cfg r s = (Raise e, s1, t) ->
  rows_written t = [] /\ counts_assigned t = [] /\
  (List.length (sends t) <= 1)%nat /\
  stamps_assigned t = [] /\
  sent_count s1 = sent_count s /\
  last_send_time s1 = last_send_time s /\
  results_file s1 = results_file s /\
  server s1 = server s /\
  n_connect s1 = n_connect s /\ n_login s1 = n_login s.
Proof.
  rewrite deliver_run.
  destruct (lookup "email" r) as [to|].
  - destruct (template_file w (n_read s)) as [html|e'].
    + cbv zeta. destruct (send_result w (n_send s)) as [e'|]; [|discriminate].
      intros H; inversion H; subst; cbn. repeat split; auto.
    + intros H; inversion H; subst; cbn. repeat split; auto.
  - intros H; inversion H; subst; cbn. repeat split; auto.
Qed.

Lemma attempt_body_raise (r : recipient) (s s1 : state) (t : list event) (e : exn) :
  attempt_body w cfg r s = (Raise e, s1, t) ->
  exists t', t = limit_trace w cfg s ++ t' /\
             deliver w cfg r (limited w cfg s) = (Raise e, s1, t').
Proof.
  rewrite attempt_body_run.
  destruct (deliver w cfg r (limited w cfg s)) as [[[[]|e'] s'] t'];
    intros H; inversion H; subst.
  exists t'. split; reflexivity.
Qed.

(** Neither [except] clause touches the counter or the time stamp, and
    neither sends. *)
Lemma on_error_frame (a : Z) (r : recipient) (e : exn) (s s2 : state)
    (res : outcome ctl) (t2 : list event) :
  on_error w a r e s = (res, s2, t2) ->
  sent_count s2 = sent_count s /\ last_send_time s2 = last_send_time s /\
  counts_assigned t2 = [] /\ stamps_assigned t2 = [] /\ sends t2 = [].
Proof.
  rewrite on_error_run.
  destruct (is_disconnected e).
  - destruct (a <? retries - 1).
    + destruct (connect_result w (n_connect s)).
      * intros H; inversion H; subst; cbn; auto.
      * destruct (login_result w (n_login s));
          intros H; inversion H; subst; cbn; auto.
    + intros H; inversion H; subst; cbn; auto.
  - destruct (lookup "email" r);
      intros H; inversion H; subst; cbn; auto.
Qed.

Lemma try_attempt_raise (r : recipient) (a : Z) (s s1 : state)
    (t1 : list event) (e : exn) :
  attempt_body w cfg r s = (Raise e, s1, t1) ->
  try_attempt w cfg r a s =
  let '(res, s2, t2) := on_error w a r e s1 in (res, s2, t1 ++ t2).
Proof. intros H. unfold try_attempt, try_except. rewrite H. reflexivity. Qed.

Lemma try_attempt_ok (r : recipient) (a : Z) (s s1 : state)
    (t1 : list event) (c : ctl) :
  attempt_body w cfg r s = (Ok c, s1, t1) ->
  try_attempt w cfg r a s = (Ok c, s1, t1).
Proof. intros H. unfold try_attempt, try_except. rewrite H. reflexivity. Qed.

(** C5.  A send that succeeds: the attempt writes the row
    [(email, success, "")], adds one to [sent_count], stores the time read
    after the send in [last_send_time], and leaves the retry loop at once,
    whatever attempts were left; a retry loop that has ended normally is
    followed by the next recipient. *)
Theorem success_outcome (r : recipient) (to html : string) (a : Z) (s : state) :
  lookup "email" r = Some to ->
  template_file w (n_read s) = inl html ->
  send_result w (n_send s) = None ->
  let s0 := limited w cfg s in
  let now := clock w (n_time s0) in
  let m := mkMessage (subject (email cfg)) (from (email cfg)) to html in
  let t := limit_trace w cfg s ++
           [EvReadTemplate; EvSend (server s) m; EvWriteRow [to; "success"; ""];
            EvSentCount (sent_count s0 + 1); EvTime now; EvLastSendTime now] in
  exists s',
    try_attempt w cfg r a s = (Ok Break, s', t) /\
    rows_written t = [[to; "success"; ""]] /\
    results_file s' =
      option_map (fun rows => rows ++ [[to; "success"; ""]]) (results_file s) /\
    sent_count s' = sent_count s0 + 1 /\
    last_send_time s' = now /\
    sends t = [m] /\
    (forall rest, retry_loop w cfg r (a :: rest) s = (Ok tt, s', t)) /\
    (forall rs s_in s_out t_loop,
       retry_loop w cfg r (range retries) s_in = (Ok tt, s_out, t_loop) ->
       send_loop w cfg (r :: rs) s_in =
       let '(res, s2, t2) := send_loop w cfg rs s_out in (res, s2, t_loop ++ t2)).
Proof.
  intros Hto Hread Hsend s0 now m t.
  destruct (limited_frame s) as (Hlast & Hserver & Hfile & Hns & Hnr & _).
  destruct (limit_trace_silent s) as (Hsends & Hrows & _).
  assert (Hbody : attempt_body w cfg r s = (Ok Break, delivered w to s0, t)).
  { rewrite attempt_body_run, deliver_run, Hto, Hnr, Hread. cbv zeta.
    rewrite Hns, Hsend, Hserver. reflexivity. }
  pose proof (try_attempt_ok _ a _ _ _ _ Hbody) as Htry.
  exists (delivered w to s0). split; [exact Htry|].
  split. { unfold t. rewrite rows_written_app, Hrows. reflexivity. }
  split. { cbn. unfold s0. rewrite Hfile. reflexivity. }
  split; [reflexivity|]. split; [reflexivity|].
  split. { unfold t. rewrite sends_app, Hsends. reflexivity. }
  split.
  - intros rest. rewrite retry_loop_cons, Htry. reflexivity.
  - intros rs s_in s_out t_loop Hloop. exact (advance r to rs _ _ _ Hto Hloop).
Qed.

(** C4, as the code has it.  An attempt that fails with an exception other
    than [SMTPServerDisconnected]: the attempt writes exactly one row,
    [(email, failed, str(e))], whose message is the text of the exception
    whatever it is, sends nothing more, and leaves the retry loop at once,
    whatever attempts were left; a retry loop that has ended normally is
    followed by the next recipient. *)
Theorem failure_outcome (r : recipient) (to : string) (a : Z)
    (s s1 : state) (t1 : list event) (e : exn) :
  lookup "email" r = Some to ->
  attempt_body w cfg r s = (Raise e, s1, t1) ->
  is_disconnected e = false ->
  let s' := recorded [to; "failed"; str e] s1 in
  let t := t1 ++ [EvWriteRow [to; "failed"; str e]] in
  try_attempt w cfg r a s = (Ok Break, s', t) /\
  rows_written t = [[to; "failed"; str e]] /\
  results_file s' =
    option_map (fun rows => rows ++ [[to; "failed"; str e]]) (results_file s) /\
  (List.length (sends t) <= 1)%nat /\
  (forall rest, retry_loop w cfg r (a :: rest) s = (Ok tt, s', t)) /\
  (forall rs s_in s_out t_loop,
     retry_loop w cfg r (range retries) s_in = (Ok tt, s_out, t_loop) ->
     send_loop w cfg (r :: rs) s_in =
     let '(res, s2, t2) := send_loop w cfg rs s_out in (res, s2, t_loop ++ t2)).
Proof.
  intros Hto Hbody Hother s' t.
  assert (Htry : try_attempt w cfg r a s = (Ok Break, s', t)).
  { rewrite (try_attempt_raise _ a _ _ _ _ Hbody), on_error_run, Hother, Hto.
    reflexivity. }
  destruct (attempt_body_raise _ _ _ _ _ Hbody) as (t' & -> & Hdel).
  destruct (deliver_raise _ _ _ _ _ Hdel)
    as (Hrows & _ & Hlen & _ & _ & _ & Hfile & _).
  destruct (limit_trace_silent s) as (Hsends0 & Hrows0 & _).
  destruct (limited_frame s) as (_ & _ & Hfile0 & _).
  split; [exact Htry|].
  split. { unfold t. rewrite !rows_written_app, Hrows0, Hrows. reflexivity. }
  split. { cbn. rewrite Hfile, Hfile0. reflexivity. }
  split. { unfold t. rewrite !sends_app, Hsends0. cbn. rewrite app_nil_r. exact Hlen. }
  split.
  - intros rest. rewrite retry_loop_cons, Htry. reflexivity.
  - intros rs s_in s_out t_loop Hloop. exact (advance r to rs _ _ _ Hto Hloop).
Qed.

(** C10.  An attempt whose send fails, with a disconnection or with any
    other exception, and however its [except] clause ends: [sent_count] and
    [last_send_time] are what the rate-limit check before the send left,
    and the check itself never touches [last_send_time]; nothing is assigned
    to either after the check.  An attempt after which [last_send_time]
    differs, or [sent_count] is not what the check left, has sent. *)
Theorem failed_attempt_frame (r : recipient) (a : Z) (s s' : state)
    (res : outcome ctl) (t : list event) :
  try_attempt w cfg r a s = (res, s', t) ->
  (forall e s1 t1,
     attempt_body w cfg r s = (Raise e, s1, t1) ->
     sent_count s1 = sent_count (limited w cfg s) /\
     sent_count s' = sent_count (limited w cfg s) /\
     last_send_time s' = last_send_time s /\
     counts_assigned t = counts_assigned (limit_trace w cfg s) /\
     stamps_assigned t = []) /\
  (sent_count s' <> sent_count (limited w cfg s) \/
   last_send_time s' <> last_send_time s ->
   exists s1 t1, attempt_body w cfg r s = (Ok Break, s1, t1) /\
                 sent_count s' = sent_count (limited w cfg s) + 1).
Proof.
  intros Htry.
  assert (Hfail : forall e s1 t1,
     attempt_body w cfg r s = (Raise e, s1, t1) ->
     sent_count s1 = sent_count (limited w cfg s) /\
     sent_count s' = sent_count (limited w cfg s) /\
     last_send_time s' = last_send_time s /\
     counts_assigned t = counts_assigned (limit_trace w cfg s) /\
     stamps_assigned t = []).
  { intros e s1 t1 Hbody.
    rewrite (try_attempt_raise _ a _ _ _ _ Hbody) in Htry.
    destruct (on_error w a r e s1) as [[res2 s2] t2] eqn:Herr.
    inversion Htry; subst; clear Htry.
    destruct (on_error_frame _ _ _ _ _ _ _ Herr) as (Hc & Hl & Hca & Hsa & _).
    destruct (attempt_body_raise _ _ _ _ _ Hbody) as (t' & -> & Hdel).
    destruct (deliver_raise _ _ _ _ _ Hdel)
      as (_ & Hca' & _ & Hsa' & Hc' & Hl' & _).
    destruct (limited_frame s) as (Hl0 & _).
    destruct (limit_trace_silent s) as (_ & _ & Hsa0).
    rewrite !counts_assigned_app, !stamps_assigned_app.
    rewrite Hca, Hca', Hsa, Hsa', Hsa0, Hc, Hl, Hc', Hl', Hl0, !app_nil_r.
    repeat split; reflexivity. }
  split; [exact Hfail|].
  intros Hchanged.
  destruct (attempt_body w cfg r s) as [[[c|e] s1] t1] eqn:Hbody.
  - rewrite (try_attempt_ok _ a _ _ _ _ Hbody) in Htry.
    inversion Htry; subst; clear Htry.
    rewrite attempt_body_run, deliver_run in Hbody.
    destruct (lookup "email" r) as [to|]; [|discriminate].
    destruct (template_file w _) as [html|]; [|discriminate].
    cbv zeta in Hbody. destruct (send_result w _); [discriminate|].
    inversion Hbody; subst. eexists _, _. split; reflexivity.
  - destruct (Hfail e s1 t1 eq_refl) as (_ & Hc & Hl & _).
    destruct Hchanged as [F|F]; contradiction.
Qed.

(** *** The run around the loop *)

Lemma smtp_exit_run (sid : nat) (s : state) :
  smtp_exit w sid s =
  if quit_ok w (n_quit s) then (Ok tt, tick_quit s, [EvQuit sid])
  else match quit_result w (n_quit s) with
       | Some e => (Raise e, tick_quit s, [EvQuit sid])
       | None => (Ok tt, tick_quit s, [EvQuit sid])
       end.
Proof.
  unfold smtp_exit, quit_ok.
  destruct (quit_result w (n_quit s)) as [[m|m|m]|]; reflexivity.
Qed.

Lemma test_smtp_connection_ok (s : state) :
  connect_result w (n_connect s) = None ->
  login_result w (n_login s) = None ->
  quit_ok w (n_quit s) = true ->
  _test_smtp_connection w s =
  (Ok true, tick_quit (tick_login (tick_connect s)),
   [EvConnect (n_connect s); EvLogin (n_connect s); EvQuit (n_connect s)]).
Proof.
  intros Hc Hl Hq.
  unfold _test_smtp_connection, try_except, with_SMTP_SSL.
  unfold bind at 1. unfold SMTP_SSL at 1. rewrite Hc.
  unfold finally. unfold bind at 1. unfold login at 1.
  fields. rewrite Hl. cbn [ret app].
  rewrite smtp_exit_run. fields. rewrite Hq. reflexivity.
Qed.

(** When everything before the loop goes well, a run is the prologue, the
    loop, and the QUIT of the first session of the loop. *)
Lemma send_newsletters_run (s : state) (rs : list recipient) :
  reaches_loop w s rs ->
  send_newsletters w cfg s =
  let '(res, s1, t1) := send_loop w cfg rs (loop_entry s) in
  match smtp_exit w (S (n_connect s)) s1 with
  | (Ok _, s2, t2) => (res, s2, prologue s ++ t1 ++ t2)
  | (Raise e, s2, t2) => (Raise e, s2, prologue s ++ t1 ++ t2)
  end.
Proof.
  intros (Hc & Hl & Hq & (html & Hr) & Hrs & Hc' & Hl').
  unfold send_newsletters.
  unfold bind at 1. rewrite (test_smtp_connection_ok s Hc Hl Hq).
  unfold bind at 1. unfold _read_template, read_template_file at 1.
  fields. rewrite Hr.
  unfold bind at 1. unfold _read_recipients at 1. rewrite Hrs.
  unfold bind at 1. unfold open_results at 1. cbn [bind emit modify app].
  unfold bind at 1. unfold writerow at 1. cbn [bind emit modify app].
  unfold try_except, with_SMTP_SSL.
  unfold bind at 1. unfold SMTP_SSL at 1. fields.
  rewrite Hc'. unfold finally, session.
  unfold bind at 1. cbn [modify]. unfold bind at 1. unfold login at 1.
  fields. rewrite Hl'.
  match goal with
  | |- context [send_loop w cfg rs ?s0] =>
      change s0 with (loop_entry s);
      destruct (send_loop w cfg rs (loop_entry s)) as [[[[]|e] s1] t1]
  end.
  - destruct (smtp_exit w (S (n_connect s)) s1) as [[[[]|e] s2] t2];
      unfold raise; cbn [app prologue]; rewrite ?app_nil_r; reflexivity.
  - destruct (smtp_exit w (S (n_connect s)) s1) as [[[[]|e'] s2] t2];
      unfold raise; cbn [app prologue]; rewrite ?app_nil_r; reflexivity.
Qed.

(** *** Counting the sends of a recipient *)

Lemma deliver_sends (r : recipient) (s : state) :
  (List.length (sends (snd (deliver w cfg r s))) <= 1)%nat.
Proof.
  rewrite deliver_run.
  destruct (lookup "email" r); [|cbn; lia].
  destruct (template_file w (n_read s)); [|cbn; lia].
  cbv zeta. destruct (send_result w (n_send s)); cbn; lia.
Qed.

Lemma try_attempt_sends (r : recipient) (a : Z) (s : state) :
  (List.length (sends (snd (try_attempt w cfg r a s))) <= 1)%nat.
Proof.
  pose proof (deliver_sends r (limited w cfg s)) as Hd.
  destruct (limit_trace_silent s) as (Hs0 & _).
  unfold try_attempt, try_except. rewrite attempt_body_run.
  destruct (deliver w cfg r (limited w cfg s)) as [[[[]|e] s1] t1]; cbn [snd] in *.
  - rewrite sends_app, Hs0. exact Hd.
  - destruct (on_error w a r e s1) as [[res s2] t2] eqn:Herr.
    destruct (on_error_frame _ _ _ _ _ _ _ Herr) as (_ & _ & _ & _ & Hs2).
    cbn [snd]. rewrite !sends_app, Hs0, Hs2, app_nil_r. exact Hd.
Qed.

Lemma retry_loop_sends (r : recipient) (attempts : list Z) (s : state) :
  (List.length (sends (snd (retry_loop w cfg r attempts s))) <= List.length attempts)%nat.
Proof.
  revert s. induction attempts as [|a rest IH]; intros s.
  - cbn. lia.
  - rewrite retry_loop_cons.
    pose proof (try_attempt_sends r a s) as Ha.
    destruct (try_attempt w cfg r a s) as [[[[|]|e] s1] t1]; cbn [snd] in *.
    + specialize (IH s1).
      destruct (retry_loop w cfg r rest s1) as [[res s2] t2]. cbn [snd] in *.
      rewrite sends_app, length_app. cbn [List.length]. lia.
    + cbn [List.length]. lia.
    + cbn [List.length]. lia.
Qed.

(** C2.  The retry policy of one recipient.  At most three messages are
    handed to the server for it.  A disconnection on an attempt that is not
    the last is followed by a sleep of 5 seconds and a new connection; when
    the connection and its login succeed, the same recipient is retried with
    the attempts that are left, on the new session.  A disconnection on the
    last attempt leaves the retry loop as an exception, without a row; an
    exception that leaves the retry loop ends the loop over the recipients
    and the run: no later recipient is processed and nothing more is
    sent. *)
Theorem retry_policy (r : recipient) (to : string) :
  lookup "email" r = Some to ->
  (forall s res s' t,
     process_recipient w cfg r s = (res, s', t) ->
     (List.length (sends t) <= 3)%nat) /\
  (forall a rest s s1 t1 m,
     attempt_body w cfg r s = (Raise (SMTPServerDisconnected m), s1, t1) ->
     a < retries - 1 ->
     let sid := n_connect s1 in
     (exists res s2 t2,
        retry_loop w cfg r (a :: rest) s =
        (res, s2, t1 ++ EvSleep 5 :: EvConnect sid :: t2)) /\
     (connect_result w sid = None ->
      login_result w (n_login s1) = None ->
      server (reconnected s1) = sid /\
      retry_loop w cfg r (a :: rest) s =
      let '(res, s2, t2) := retry_loop w cfg r rest (reconnected s1) in
      (res, s2, t1 ++ [EvSleep 5; EvConnect sid; EvLogin sid] ++ t2))) /\
  (forall a rest s s1 t1 m,
     attempt_body w cfg r s = (Raise (SMTPServerDisconnected m), s1, t1) ->
     a = retries - 1 ->
     retry_loop w cfg r (a :: rest) s = (Raise (SMTPServerDisconnected m), s1, t1) /\
     rows_written t1 = []) /\
  (forall rs s s1 t1 e,
     retry_loop w cfg r (range retries) s = (Raise e, s1, t1) ->
     send_loop w cfg (r :: rs) s = (Raise e, s1, t1)) /\
  (forall rs s s1 t1 e,
     reaches_loop w s rs ->
     send_loop w cfg rs (loop_entry s) = (Raise e, s1, t1) ->
     exists e' t2,
       send_newsletters w cfg s =
       (Raise e', tick_quit s1, prologue s ++ t1 ++ t2) /\
       sends t2 = [] /\ rows_written t2 = []).
Proof.
  intros Hto.
  assert (Hstep : forall a s s1 t1 m,
    attempt_body w cfg r s = (Raise (SMTPServerDisconnected m), s1, t1) ->
    try_attempt w cfg r a s =
    let '(res, s2, t2) :=
      (if a <? retries - 1 then
         match connect_result w (n_connect s1) with
         | Some e' => (Raise e', tick_connect s1, [EvSleep 5; EvConnect (n_connect s1)])
         | None =>
             match login_result w (n_login s1) with
             | Some e' =>
                 (Raise e', reconnected s1,
                  [EvSleep 5; EvConnect (n_connect s1); EvLogin (n_connect s1)])
             | None =>
                 (Ok Continue, reconnected s1,
                  [EvSleep 5; EvConnect (n_connect s1); EvLogin (n_connect s1)])
             end
         end
       else (Raise (SMTPServerDisconnected m), s1, []))
    in (res, s2, t1 ++ t2)).
  { intros a s s1 t1 m Hbody.
    rewrite (try_attempt_raise _ a _ _ _ _ Hbody), on_error_run. reflexivity. }
  split; [|split; [|split; [|split]]].
  - intros s res s' t Hrun.
    rewrite process_recipient_run, Hto in Hrun.
    pose proof (retry_loop_sends r (range retries) s) as Hn.
    destruct (retry_loop w cfg r (range retries) s) as [[[[]|e] s1] t1];
      inversion Hrun; subst; exact Hn.
  - intros a rest s s1 t1 m Hbody Ha sid.
    rewrite retry_loop_cons, (Hstep a _ _ _ _ Hbody).
    apply Z.ltb_lt in Ha. rewrite Ha. fold sid. split.
    + destruct (connect_result w sid); [eexists _, _, _; reflexivity|].
      destruct (login_result w (n_login s1)); [eexists _, _, _; reflexivity|].
      destruct (retry_loop w cfg r rest (reconnected s1)) as [[res s2] t2].
      eexists _, _, _. rewrite <- app_assoc. reflexivity.
    + intros Hc Hl. rewrite Hc, Hl. split; [reflexivity|].
      destruct (retry_loop w cfg r rest (reconnected s1)) as [[res s2] t2].
      rewrite <- app_assoc. reflexivity.
  - intros a rest s s1 t1 m Hbody Ha.
    rewrite retry_loop_cons, (Hstep a _ _ _ _ Hbody).
    subst a. rewrite Z.ltb_irrefl, app_nil_r. split; [reflexivity|].
    destruct (attempt_body_raise _ _ _ _ _ Hbody) as (t' & -> & Hdel).
    destruct (deliver_raise _ _ _ _ _ Hdel) as (Hrows & _).
    destruct (limit_trace_silent s) as (_ & Hrows0 & _).
    rewrite rows_written_app, Hrows0, Hrows. reflexivity.
  - intros rs s s1 t1 e Hloop. exact (abort r to rs _ _ _ e Hto Hloop).
  - intros rs s s1 t1 e Hreach Hloop.
    rewrite (send_newsletters_run s rs Hreach), Hloop, smtp_exit_run.
    destruct (quit_ok w (n_quit s1)); [eexists _, _; repeat split; reflexivity|].
    destruct (quit_result w (n_quit s1)); eexists _, _; repeat split; reflexivity.
Qed.

(** *** One row per recipient *)

(** What the effects around the loop do to the results file. *)
Lemma SMTP_SSL_ok (s s' : state) (sid : nat) (t : list event) :
  SMTP_SSL w s = (Ok sid, s', t) ->
  results_file s' = results_file s /\ rows_written t = [].
Proof.
  unfold SMTP_SSL. destruct (connect_result w (n_connect s)); [discriminate|].
  intros H; inversion H; subst. auto.
Qed.

Lemma login_ok (sid : nat) (s s' : state) (t : list event) :
  login w sid s = (Ok tt, s', t) ->
  results_file s' = results_file s /\ rows_written t = [].
Proof.
  unfold login. destruct (login_result w (n_login s)); [discriminate|].
  intros H; inversion H; subst. auto.
Qed.

Lemma smtp_exit_ok (sid : nat) (s s' : state) (t : list event) :
  smtp_exit w sid s = (Ok tt, s', t) ->
  results_file s' = results_file s /\ rows_written t = [].
Proof.
  unfold smtp_exit. destruct (quit_result w (n_quit s)) as [[m|m|m]|];
    intros H; inversion H; subst; auto.
Qed.

Lemma test_smtp_connection_rows (s s' : state) (b : bool) (t : list event) :
  _test_smtp_connection w s = (Ok b, s', t) -> rows_written t = [].
Proof.
  intros H. apply reraise_ok in H. unfold with_SMTP_SSL in H.
  apply bind_ok in H. destruct H as (sid & s1 & t1 & t2 & H1 & H2 & ->).
  apply finally_ok in H2. destruct H2 as (s2 & t3 & t4 & H2 & H3 & ->).
  apply bind_ok in H2. destruct H2 as ([] & s3 & t5 & t6 & H2 & H4 & ->).
  inversion H4; subst.
  apply SMTP_SSL_ok in H1. apply login_ok in H2. apply smtp_exit_ok in H3.
  rewrite !rows_written_app.
  destruct H1 as [_ ->], H2 as [_ ->], H3 as [_ ->]. reflexivity.
Qed.

(** An attempt that does not raise has written the row of the recipient and
    left the loop, or has written nothing and was not the last. *)
Lemma try_attempt_rows (r : recipient) (to : string) (a : Z) (c : ctl)
    (s s' : state) (t : list event) :
  lookup "email" r = Some to ->
  try_attempt w cfg r a s = (Ok c, s', t) ->
  (c = Break /\
   exists line, outcome_of r line /\ rows_written t = [line] /\
                results_file s' = option_map (fun rows => rows ++ [line]) (results_file s))
  \/
  (c = Continue /\ a < retries - 1 /\ rows_written t = [] /\
   results_file s' = results_file s).
Proof.
  intros Hto Htry.
  destruct (limit_trace_silent s) as (_ & Hrows0 & _).
  destruct (limited_frame s) as (_ & _ & Hfile0 & _).
  destruct (attempt_body w cfg r s) as [[[c'|e] s1] t1] eqn:Hbody.
  - rewrite (try_attempt_ok _ a _ _ _ _ Hbody) in Htry.
    inversion Htry; subst; clear Htry.
    rewrite attempt_body_run, deliver_run, Hto in Hbody.
    destruct (template_file w _) as [html|]; [|discriminate].
    cbv zeta in Hbody. destruct (send_result w _); [discriminate|].
    inversion Hbody; subst; clear Hbody.
    left. split; [reflexivity|]. exists [to; "success"; ""].
    split; [exists to, "success", ""; auto|].
    rewrite rows_written_app, Hrows0. cbn. rewrite Hfile0. auto.
  - rewrite (try_attempt_raise _ a _ _ _ _ Hbody), on_error_run, Hto in Htry.
    destruct (attempt_body_raise _ _ _ _ _ Hbody) as (t' & -> & Hdel).
    destruct (deliver_raise _ _ _ _ _ Hdel)
      as (Hrows & _ & _ & _ & _ & _ & Hfile & _).
    destruct (is_disconnected e).
    + destruct (a <? retries - 1) eqn:Ha; [|discriminate].
      apply Z.ltb_lt in Ha.
      destruct (connect_result w (n_connect s1)); [discriminate|].
      destruct (login_result w (n_login s1)); [discriminate|].
      inversion Htry; subst; clear Htry.
      right. rewrite !rows_written_app, Hrows0, Hrows. cbn.
      rewrite Hfile, Hfile0. auto.
    + inversion Htry; subst; clear Htry.
      left. split; [reflexivity|]. exists [to; "failed"; str e].
      split; [exists to, "failed", (str e); auto|].
      rewrite !rows_written_app, Hrows0, Hrows. cbn.
      rewrite Hfile, Hfile0. auto.
Qed.

(** A retry loop that ends normally has written exactly the row of its
    recipient. *)
Lemma retry_loop_rows (r : recipient) (to : string) (attempts : list Z) :
  lookup "email" r = Some to ->
  ends_with_last attempts ->
  forall s s' t,
    retry_loop w cfg r attempts s = (Ok tt, s', t) ->
    exists line, outcome_of r line /\ rows_written t = [line] /\
                 results_file s' = option_map (fun rows => rows ++ [line]) (results_file s).
Proof.
  intros Hto. induction attempts as [|a rest IH]; intros [Hne Hlast] s s' t Hloop.
  - contradiction.
  - rewrite retry_loop_cons in Hloop.
    destruct (try_attempt w cfg r a s) as [[[c|e] s1] t1] eqn:Htry; [|discriminate].
    destruct (try_attempt_rows _ _ _ _ _ _ _ Hto Htry)
      as [(-> & line & Hline & Hrows & Hfile) | (-> & Ha & Hrows & Hfile)].
    + inversion Hloop; subst. eauto.
    + destruct rest as [|a' rest'].
      * cbn [last] in Hlast. lia.
      * assert (Hrest : ends_with_last (a' :: rest')).
        { split; [discriminate | exact Hlast]. }
        destruct (retry_loop w cfg r (a' :: rest') s1) as [[res s2] t2] eqn:Hrec.
        inversion Hloop; subst.
        destruct (IH Hrest _ _ _ Hrec) as (line & Hline & Hrows2 & Hfile2).
        exists line. rewrite rows_written_app, Hrows, Hrows2, Hfile2, Hfile. auto.
Qed.

Lemma range_retries_ends : ends_with_last (range retries).
Proof. split; [discriminate | reflexivity]. Qed.

(** A loop over the recipients that ends normally has appended one row per
    recipient, in order. *)
Lemma send_loop_rows (rs : list recipient) :
  forall s s' t rows0,
    results_file s = Some rows0 ->
    send_loop w cfg rs s = (Ok tt, s', t) ->
    exists rows, Forall2 outcome_of rs rows /\
                 rows_written t = rows /\
                 results_file s' = Some (rows0 ++ rows).
Proof.
  induction rs as [|r rs IH]; intros s s' t rows0 Hfile Hloop.
  - inversion Hloop; subst. exists []. rewrite app_nil_r. auto.
  - rewrite send_loop_cons, process_recipient_run in Hloop.
    destruct (lookup "email" r) as [to|] eqn:Hto; [|discriminate].
    destruct (retry_loop w cfg r (range retries) s) as [[[[]|e] s1] t1] eqn:Hretry;
      [|discriminate].
    destruct (retry_loop_rows r to _ Hto range_retries_ends _ _ _ Hretry)
      as (line & Hline & Hrows & Hfile1).
    rewrite Hfile in Hfile1. cbn in Hfile1.
    destruct (send_loop w cfg rs s1) as [[res s2] t2] eqn:Hrest.
    inversion Hloop; subst.
    destruct (IH _ _ _ _ Hfile1 Hrest) as (rows & Hall & Hrows2 & Hfile2).
    exists (line :: rows). split; [constructor; assumption|].
    rewrite rows_written_app, Hrows, Hrows2, Hfile2, <- app_assoc. auto.
Qed.

(** C1.  A run of [send_newsletters] that ends without an exception: the
    recipients file was read, and the results file holds the header and
    then exactly one row per recipient, in the order of the recipients,
    each with the address of its recipient and the status success or
    failed; these are all the rows the run has written. *)
Theorem one_row_per_recipient (s s' : state) (t : list event) :
  send_newsletters w cfg s = (Ok tt, s', t) ->
  exists rs rows,
    recipients_csv w = inl rs /\
    results_file s' = Some (header :: rows) /\
    rows_written t = header :: rows /\
    List.length rows = List.length rs /\
    Forall2 outcome_of rs rows.
Proof.
  intros Hrun. unfold send_newsletters in Hrun.
  apply bind_ok in Hrun. destruct Hrun as (b & s1 & t1 & u1 & Htest & Hrun & ->).
  apply bind_ok in Hrun. destruct Hrun as (html & s2 & t2 & u2 & Htpl & Hrun & ->).
  apply bind_ok in Hrun. destruct Hrun as (rs & s3 & t3 & u3 & Hrs & Hrun & ->).
  apply bind_ok in Hrun. destruct Hrun as ([] & s4 & t4 & u4 & Hopen & Hrun & ->).
  apply bind_ok in Hrun. destruct Hrun as ([] & s5 & t5 & u5 & Hhead & Hrun & ->).
  apply reraise_ok in Hrun. unfold with_SMTP_SSL in Hrun.
  apply bind_ok in Hrun. destruct Hrun as (sid & s6 & t6 & u6 & Hconn & Hrun & ->).
  apply finally_ok in Hrun. destruct Hrun as (s7 & t7 & t8 & Hsess & Hquit & ->).
  unfold session in Hsess.
  apply bind_ok in Hsess. destruct Hsess as ([] & s8 & t9 & u9 & Hset & Hsess & ->).
  apply bind_ok in Hsess. destruct Hsess as ([] & s9 & t10 & u10 & Hlogin & Hloop & ->).
  apply test_smtp_connection_rows in Htest.
  assert (Htpl' : rows_written t2 = []).
  { unfold _read_template, read_template_file in Htpl.
    destruct (template_file w (n_read s1)); inversion Htpl; reflexivity. }
  unfold _read_recipients in Hrs.
  destruct (recipients_csv w) as [rs'|e] eqn:Hcsv; [|discriminate].
  inversion Hrs; subst; clear Hrs.
  inversion Hopen; subst; clear Hopen.
  inversion Hhead; subst; clear Hhead.
  inversion Hset; subst; clear Hset.
  apply SMTP_SSL_ok in Hconn. destruct Hconn as [Hf6 Hr6].
  apply login_ok in Hlogin. destruct Hlogin as [Hf9 Hr9].
  apply smtp_exit_ok in Hquit. destruct Hquit as [Hf' Hr'].
  assert (Hentry : results_file s9 = Some ([] ++ [header])).
  { rewrite Hf9. cbn. rewrite Hf6. reflexivity. }
  destruct (send_loop_rows _ _ _ _ _ Hentry Hloop) as (rows & Hall & Hrows & Hfile).
  exists rs, rows. split; [reflexivity|].
  split. { rewrite Hf', Hfile. reflexivity. }
  split. { rewrite !rows_written_app, Htest, Htpl', Hr6, Hr9, Hrows, Hr'.
           cbn. rewrite app_nil_r. reflexivity. }
  split; [|exact Hall].
  symmetry. exact (Forall2_length Hall).
Qed.

(** *** The rate limiter before every send *)

Lemma scan_limit_trace (p : phase) (s : state) :
  scan p (limit_trace w cfg s) = Some Limited.
Proof.
  unfold limit_trace. rewrite rate_limit_run.
  destruct (sent_count s >=? _).
  - cbn [snd scan step]. rewrite scan_sleeps. reflexivity.
  - cbv zeta. destruct (Qltb _ _); reflexivity.
Qed.

Lemma guarded_on_error (a : Z) (r : recipient) (e : exn) (s : state) :
  guarded (snd (on_error w a r e s)).
Proof.
  rewrite on_error_run.
  destruct (is_disconnected e).
  - destruct (a <? retries - 1); [|apply guarded_nil].
    destruct (connect_result w (n_connect s)); [intros []; discriminate|].
    destruct (login_result w (n_login s)); intros []; discriminate.
  - destruct (lookup "email" r); [intros []; discriminate | apply guarded_nil].
Qed.

Lemma guarded_try_attempt (r : recipient) (a : Z) (s : state) :
  guarded (snd (try_attempt w cfg r a s)).
Proof.
  intros p. unfold try_attempt, try_except.
  rewrite attempt_body_run, deliver_run.
  destruct (lookup "email" r) as [to|].
  - destruct (template_file w _) as [html|e].
    + cbv zeta. destruct (send_result w _) as [e|].
      * pose proof (guarded_on_error a r e (tick_send (tick_read (limited w cfg s)))) as Hh.
        destruct (on_error w a r e _) as [[res s2] t2]. cbn [snd] in *.
        rewrite !scan_app, scan_limit_trace. cbn [scan step]. apply Hh.
      * cbn [snd]. rewrite scan_app, scan_limit_trace. discriminate.
    + pose proof (guarded_on_error a r e (tick_read (limited w cfg s))) as Hh.
      destruct (on_error w a r e _) as [[res s2] t2]. cbn [snd] in *.
      rewrite !scan_app, scan_limit_trace. cbn [scan step]. apply Hh.
  - pose proof (guarded_on_error a r (Exception "'email'") (limited w cfg s)) as Hh.
    destruct (on_error w a r _ _) as [[res s2] t2]. cbn [snd] in *.
    rewrite !scan_app, scan_limit_trace. cbn [scan step]. apply Hh.
Qed.

(** C8.  In the trace of a run, every message handed to the server comes
    directly after a rate-limit check of its own: before the send stand the
    entry of [_rate_limit], then only what the limiter itself does (reading
    the clock, sleeping, resetting the counter), then the read of the
    template for the body of the message, and nothing else.  This holds of
    first attempts and of retries alike. *)
Theorem rate_limit_before_every_send (s : state) (t1 t2 : list event)
    (sid : nat) (m : message) :
  snd (send_newsletters w cfg s) = t1 ++ EvSend sid m :: t2 ->
  exists t0 tl,
    t1 = t0 ++ EvRateLimit :: tl ++ [EvReadTemplate] /\
    Forall (fun e => limiter_event e = true) tl.
Proof.
  intros Htrace.
  assert (Hguard : guarded (snd (send_newsletters w cfg s))).
  { apply (keeps_send_newsletters (fun _ => True) guarded
             guarded_nil guarded_app guarded_quiet (fun _ _ _ _ => Logic.I) w cfg).
    - intros r a s0 _. split; [exact Logic.I | apply guarded_try_attempt].
    - exact Logic.I. }
  rewrite Htrace in Hguard. specialize (Hguard Idle).
  rewrite scan_app in Hguard.
  destruct (scan Idle t1) as [p|] eqn:Hscan; [|contradiction].
  destruct p; cbn [scan step] in Hguard; try contradiction.
  destruct (scan_composed _ _ Hscan) as [[F _] | [[F _] | H]];
    [discriminate | discriminate | exact H].
Qed.

(** *** The counter and the batch size *)

Lemma try_attempt_bound (r : recipient) (a : Z) :
  1 <= emails_per_batch (rate_limit cfg) ->
  keeps (fun s => sent_count s <= emails_per_batch (rate_limit cfg))
        (fun t => Forall (fun n => n <= emails_per_batch (rate_limit cfg))
                         (counts_assigned t))
        (try_attempt w cfg r a).
Proof.
  intros Hbatch s Hs.
  pose proof (limited_sent_count s) as Hc0.
  pose proof (limit_trace_counts s) as Ht0.
  assert (Hlt : sent_count (limited w cfg s) < emails_per_batch (rate_limit cfg)).
  { rewrite Hc0. destruct (sent_count s >=? _) eqn:Hfull; [lia|].
    rewrite Z.geb_leb in Hfull. apply Z.leb_gt in Hfull. lia. }
  assert (Hall0 : Forall (fun n => n <= emails_per_batch (rate_limit cfg))
                         (counts_assigned (limit_trace w cfg s))).
  { rewrite Ht0. destruct (sent_count s >=? _); constructor; [lia | constructor]. }
  destruct (attempt_body w cfg r s) as [[[c|e] s1] t1] eqn:Hbody.
  - rewrite (try_attempt_ok _ a _ _ _ _ Hbody). cbn [fst snd].
    rewrite attempt_body_run, deliver_run in Hbody.
    destruct (lookup "email" r) as [to|]; [|discriminate].
    destruct (template_file w _) as [html|]; [|discriminate].
    cbv zeta in Hbody. destruct (send_result w _); [discriminate|].
    inversion Hbody; subst; clear Hbody.
    split; [cbn; lia|].
    rewrite counts_assigned_app. apply Forall_app. split; [exact Hall0|].
    cbn. constructor; [lia | constructor].
  - pose proof (try_attempt_raise _ a _ _ _ _ Hbody) as Htry.
    destruct (on_error w a r e s1) as [[res s2] t2] eqn:Herr.
    rewrite Htry. cbn [fst snd].
    destruct (on_error_frame _ _ _ _ _ _ _ Herr) as (Hc & _ & Hca & _).
    destruct (attempt_body_raise _ _ _ _ _ Hbody) as (t' & -> & Hdel).
    destruct (deliver_raise _ _ _ _ _ Hdel) as (_ & Hca' & _ & _ & Hc' & _).
    split; [lia|].
    rewrite !counts_assigned_app, Hca, Hca', !app_nil_r. exact Hall0.
Qed.

(** C9.  With a batch size of at least 1 and a counter that does not exceed
    it when [send_newsletters] starts (as the counter 0 that [__init__]
    leaves does not), no value assigned to [sent_count] during the run
    exceeds the batch size, and neither does the counter when the run ends,
    normally or with an exception. *)
Theorem sent_count_bounded (s : state) :
  1 <= emails_per_batch (rate_limit cfg) ->
  sent_count s <= emails_per_batch (rate_limit cfg) ->
  Forall (fun n => n <= emails_per_batch (rate_limit cfg))
         (counts_assigned (snd (send_newsletters w cfg s))) /\
  sent_count (snd (fst (send_newsletters w cfg s))) <= emails_per_batch (rate_limit cfg).
Proof.
  intros Hbatch Hs.
  set (B := emails_per_batch (rate_limit cfg)) in *.
  set (T := fun t => Forall (fun n => n <= B) (counts_assigned t)).
  assert (Hnil : T []) by constructor.
  assert (Happ : forall t1 t2, T t1 -> T t2 -> T (t1 ++ t2)).
  { intros t1 t2 H1 H2. unfold T. rewrite counts_assigned_app.
    apply Forall_app. auto. }
  assert (Hquiet : forall e, quiet e = true -> T [e]).
  { intros e He. destruct e; try discriminate He; constructor. }
  assert (Hcount : forall s0 s0', sent_count s0' = sent_count s0 ->
                                  sent_count s0 <= B -> sent_count s0' <= B).
  { intros s0 s0' Heq H0. lia. }
  destruct (keeps_send_newsletters (fun s => sent_count s <= B) T
              Hnil Happ Hquiet Hcount w cfg
              (fun r a => try_attempt_bound r a Hbatch) s Hs) as [Hend Hall].
  split; [exact Hall | exact Hend].
Qed.

(** *** The pre-flight check *)

(** C6.  When the login of the pre-flight check fails, with
    [SMTPAuthenticationError] or anything else, the run ends there with an
    exception: all it has done is connect, try to log in and quit.  No
    results file is opened, no row is written, no recipient is read or
    served, and the results file is as before the run (none, for a fresh
    sender). *)
Theorem preflight_login_failure (s : state) (e : exn) :
  connect_result w (n_connect s) = None ->
  login_result w (n_login s) = Some e ->
  exists e' s',
    send_newsletters w cfg s =
    (Raise e', s',
     [EvConnect (n_connect s); EvLogin (n_connect s); EvQuit (n_connect s)]) /\
    results_file s' = results_file s /\
    (quit_ok w (n_quit s) = true -> e' = e).
Proof.
  intros Hc Hl.
  assert (Htest : exists e' s',
    _test_smtp_connection w s =
    (Raise e', s',
     [EvConnect (n_connect s); EvLogin (n_connect s); EvQuit (n_connect s)]) /\
    results_file s' = results_file s /\
    (quit_ok w (n_quit s) = true -> e' = e)).
  { unfold _test_smtp_connection, try_except, with_SMTP_SSL.
    unfold bind at 1. unfold SMTP_SSL at 1. rewrite Hc.
    unfold finally. unfold bind at 1. unfold login at 1. fields. rewrite Hl.
    rewrite smtp_exit_run. fields.
    destruct (quit_ok w (n_quit s)).
    - eexists _, _. split; [reflexivity|]. split; [reflexivity|]. reflexivity.
    - destruct (quit_result w (n_quit s));
        eexists _, _; (split; [reflexivity|]); (split; [reflexivity|]);
        discriminate. }
  destruct Htest as (e' & s' & Htest & Hfile & Hexn).
  exists e', s'. split; [|split; assumption].
  unfold send_newsletters. unfold bind at 1. rewrite Htest. reflexivity.
Qed.

End Facts.

(** ** Scenarios *)

(** C7.  The template file is read once at the start and then again for
    every attempt, and the body of a message is what that later read
    returned: with two recipients the file is read three times, and when
    the file changes in between, the two recipients get different bodies. *)
Theorem template_read_for_every_attempt :
  let t := snd (send_newsletters template_edited example_config init) in
  List.length (filter is_read t) = 3%nat /\
  map msg_html (sends t) = ["<p>hi</p>"; "<p>new</p>"] /\
  map msg_To (sends t) = ["a@x.com"; "b@x.com"].
Proof. vm_compute. repeat split; reflexivity. Qed.

(** C1 on the scenario of three recipients whose sends all succeed. *)
Lemma one_row_per_recipient_witness :
  exists rs rows,
    recipients_csv all_fine = inl rs /\
    results_file (snd (fst (send_newsletters all_fine example_config init)))
      = Some (header :: rows) /\
    rows_written (snd (send_newsletters all_fine example_config init))
      = header :: rows /\
    List.length rows = List.length rs /\
    Forall2 outcome_of rs rows.
Proof.
  apply (one_row_per_recipient all_fine example_config init
           (snd (fst (send_newsletters all_fine example_config init)))
           (snd (send_newsletters all_fine example_config init))).
  vm_compute. reflexivity.
Defined.

(** C2 on a connection that always drops: the third disconnection leaves
    the retry loop of the first recipient and ends the loop. *)
Lemma retry_policy_witness :
  lookup "email" (to_ "c@x.com") = Some "c@x.com" /\
  (List.length
     (sends (snd (process_recipient always_drops example_config (to_ "c@x.com") init)))
   <= 3)%nat /\
  exists s1 t1,
    send_loop always_drops example_config [to_ "c@x.com"; to_ "d@x.com"] init
    = (Raise (SMTPServerDisconnected "Connection unexpectedly closed"), s1, t1) /\
    List.length (sends t1) = 3%nat.
Proof.
  split; [reflexivity|].
  destruct (retry_policy always_drops example_config (to_ "c@x.com") "c@x.com" eq_refl)
    as (Hcount & _ & _ & Habort & _).
  split.
  - apply (Hcount init
             (fst (fst (process_recipient always_drops example_config (to_ "c@x.com") init)))
             (snd (fst (process_recipient always_drops example_config (to_ "c@x.com") init)))).
    vm_compute. reflexivity.
  - eexists _, _. split.
    + apply (Habort [to_ "d@x.com"] init
               (snd (fst (retry_loop always_drops example_config (to_ "c@x.com")
                            (range retries) init)))
               (snd (retry_loop always_drops example_config (to_ "c@x.com")
                       (range retries) init))).
      vm_compute. reflexivity.
    + vm_compute. reflexivity.
Defined.

(** C4 on the scenario "mailbox unavailable". *)
Lemma failure_outcome_witness :
  try_attempt mailbox_unavailable example_config (to_ "bad@x.com") 0 init
  = (Ok Break,
     recorded ["bad@x.com"; "failed"; "mailbox unavailable"]
       (snd (fst (attempt_body mailbox_unavailable example_config (to_ "bad@x.com") init))),
     snd (attempt_body mailbox_unavailable example_config (to_ "bad@x.com") init)
       ++ [EvWriteRow ["bad@x.com"; "failed"; "mailbox unavailable"]]).
Proof.
  apply (failure_outcome mailbox_unavailable example_config (to_ "bad@x.com")
           "bad@x.com" 0 init
           (snd (fst (attempt_body mailbox_unavailable example_config (to_ "bad@x.com") init)))
           (snd (attempt_body mailbox_unavailable example_config (to_ "bad@x.com") init))
           (Exception "mailbox unavailable")).
  - reflexivity.
  - vm_compute. reflexivity.
  - reflexivity.
Defined.

(** C4 as stated fails: an exception without text leaves a row whose error
    message is empty. *)
Lemma failure_message_can_be_empty :
  lookup "email" (to_ "bad@x.com") = Some "bad@x.com" /\
  (exists s1 t1,
     attempt_body mute_failure example_config (to_ "bad@x.com") init
     = (Raise (Exception ""), s1, t1)) /\
  is_disconnected (Exception "") = false /\
  rows_written (snd (try_attempt mute_failure example_config (to_ "bad@x.com") 0 init))
  = [["bad@x.com"; "failed"; ""]] /\
  ~ (exists error_message,
       error_message <> "" /\
       rows_written (snd (try_attempt mute_failure example_config (to_ "bad@x.com") 0 init))
       = [["bad@x.com"; "failed"; error_message]]).
Proof.
  split; [reflexivity|].
  split; [eexists _, _; vm_compute; reflexivity|].
  split; [reflexivity|].
  split; [vm_compute; reflexivity|].
  intros (msg & Hne & Hrow). vm_compute in Hrow.
  inversion Hrow. apply Hne. symmetry. assumption.
Qed.

(** C5 on the first recipient of the scenario in which all sends succeed. *)
Lemma success_outcome_witness :
  exists s',
    try_attempt all_fine example_config (to_ "a@x.com") 0 init
    = (Ok Break, s',
       limit_trace all_fine example_config init ++
       [EvReadTemplate;
        EvSend 0 (mkMessage "News" "news@x.com" "a@x.com" "<p>hi</p>");
        EvWriteRow ["a@x.com"; "success"; ""];
        EvSentCount (sent_count (limited all_fine example_config init) + 1);
        EvTime (clock all_fine (n_time (limited all_fine example_config init)));
        EvLastSendTime (clock all_fine (n_time (limited all_fine example_config init)))]) /\
    sent_count s' = sent_count (limited all_fine example_config init) + 1.
Proof.
  destruct (success_outcome all_fine example_config (to_ "a@x.com") "a@x.com"
              "<p>hi</p>" 0 init eq_refl eq_refl eq_refl)
    as (s' & Htry & _ & _ & Hcount & _).
  exists s'. split; [exact Htry | exact Hcount].
Defined.

(** C6 on a server that refuses the credentials: a fresh sender ends
    without a results file. *)
Lemma preflight_login_failure_witness :
  exists s',
    send_newsletters bad_credentials example_config init
    = (Raise (SMTPAuthenticationError "535 authentication failed"), s',
       [EvConnect 0; EvLogin 0; EvQuit 0]) /\
    results_file s' = None.
Proof.
  destruct (preflight_login_failure bad_credentials example_config init
              (SMTPAuthenticationError "535 authentication failed")
              eq_refl eq_refl)
    as (e' & s' & Hrun & Hfile & Hexn).
  exists s'. rewrite <- (Hexn eq_refl). split; [exact Hrun | exact Hfile].
Defined.

(** C8 on the one send of a run with one recipient. *)
Lemma rate_limit_before_every_send_witness :
  exists t0 tl,
    firstn 12 (snd (send_newsletters (calm [to_ "a@x.com"]) example_config init))
    = t0 ++ EvRateLimit :: tl ++ [EvReadTemplate] /\
    Forall (fun e => limiter_event e = true) tl.
Proof.
  apply (rate_limit_before_every_send (calm [to_ "a@x.com"]) example_config init
           (firstn 12 (snd (send_newsletters (calm [to_ "a@x.com"]) example_config init)))
           (skipn 13 (snd (send_newsletters (calm [to_ "a@x.com"]) example_config init)))
           1%nat (mkMessage "News" "news@x.com" "a@x.com" "<p>hi</p>")).
  vm_compute. reflexivity.
Defined.

(** C9 on the scenario of three recipients and a batch of two. *)
Lemma sent_count_bounded_witness :
  Forall (fun n => n <= 2)
         (counts_assigned (snd (send_newsletters all_fine example_config init))) /\
  sent_count (snd (fst (send_newsletters all_fine example_config init))) <= 2.
Proof.
  apply (sent_count_bounded all_fine example_config init).
  - vm_compute. discriminate.
  - vm_compute. discriminate.
Defined.

(** C10 on the scenario "mailbox unavailable": the failed attempt leaves the
    counter and the time stamp of the fresh sender. *)
Lemma failed_attempt_frame_witness :
  sent_count (snd (fst (try_attempt mailbox_unavailable example_config
                          (to_ "bad@x.com") 0 init))) = 0 /\
  last_send_time (snd (fst (try_attempt mailbox_unavailable example_config
                              (to_ "bad@x.com") 0 init))) = 0%Q.
Proof.
  destruct (failed_attempt_frame mailbox_unavailable example_config
              (to_ "bad@x.com") 0 init
              (snd (fst (try_attempt mailbox_unavailable example_config
                           (to_ "bad@x.com") 0 init)))
              (fst (fst (try_attempt mailbox_unavailable example_config
                           (to_ "bad@x.com") 0 init)))
              (snd (try_attempt mailbox_unavailable example_config
                      (to_ "bad@x.com") 0 init)))
    as (Hfail & _).
  - vm_compute. reflexivity.
  - destruct (Hfail (Exception "mailbox unavailable")
                (snd (fst (attempt_body mailbox_unavailable example_config
                             (to_ "bad@x.com") init)))
                (snd (attempt_body mailbox_unavailable example_config
                        (to_ "bad@x.com") init)))
      as (_ & Hcount & Hstamp & _).
    + vm_compute. reflexivity.
    + split; [exact Hcount | exact Hstamp].
Defined.

(** ** More of the program: runs that fail, and what runs never do *)

Section Anatomy.

Variable w : world.
Variable cfg : config.

(** The pre-flight check in closed form. *)
Lemma test_smtp_connection_run (s : state) :
  _test_smtp_connection w s =
  match connect_result w (n_connect s) with
  | Some e => (Raise e, tick_connect s, [EvConnect (n_connect s)])
  | None =>
      let s' := tick_quit (tick_login (tick_connect s)) in
      let t := [EvConnect (n_connect s); EvLogin (n_connect s); EvQuit (n_connect s)] in
      let logged_in :=
        match login_result w (n_login s) with
        | None => Ok true
        | Some e => Raise e
        end in
      match quit_result w (n_quit s) with
      | None | Some (SMTPServerDisconnected _) => (logged_in, s', t)
      | Some e => (Raise e, s', t)
      end
  end.
Proof.
  unfold _test_smtp_connection, try_except, with_SMTP_SSL.
  unfold bind at 1. unfold SMTP_SSL at 1.
  destruct (connect_result w (n_connect s)); [reflexivity|].
  unfold finally. unfold bind at 1. unfold login at 1. fields.
  destruct (login_result w (n_login s)); cbn [ret app];
    unfold smtp_exit; fields;
    destruct (quit_result w (n_quit s)) as [[m|m|m]|]; reflexivity.
Qed.

(** A run reaches the loop over the recipients, or ends with an exception
    on the way there: its trace is then a beginning of [opening], and the
    results file is untouched, or holds the header alone when the run got
    as far as opening it. *)
Lemma send_newsletters_cases (s : state) :
  (exists rs, reaches_loop w s rs) \/
  (exists e s' k,
     send_newsletters w cfg s = (Raise e, s', firstn k (opening s)) /\
     In k [1; 3; 4; 5; 8; 10]%nat /\
     same_self s s' /\
     results_file s' = (if Nat.leb k 5 then results_file s else Some [header]) /\
     (Nat.leb k 5 = false -> exists rs, recipients_csv w = inl rs) /\
     (forall rs, ~ reaches_loop w s rs)).
Proof.
  unfold reaches_loop, send_newsletters.
  unfold bind at 1. rewrite test_smtp_connection_run.
  destruct (connect_result w (n_connect s)) as [e|] eqn:Hc.
  { right. exists e, (tick_connect s), 1%nat. stopped. }
  cbv zeta.
  assert (Hpre :
    (quit_ok w (n_quit s) = true /\
     match quit_result w (n_quit s) with
     | None | Some (SMTPServerDisconnected _) =>
         (match login_result w (n_login s) with
          | None => Ok true
          | Some e => Raise e
          end,
          tick_quit (tick_login (tick_connect s)),
          [EvConnect (n_connect s); EvLogin (n_connect s); EvQuit (n_connect s)])
     | Some e =>
         (Raise e, tick_quit (tick_login (tick_connect s)),
          [EvConnect (n_connect s); EvLogin (n_connect s); EvQuit (n_connect s)])
     end =
     (match login_result w (n_login s) with
      | None => Ok true
      | Some e => Raise e
      end,
      tick_quit (tick_login (tick_connect s)),
      [EvConnect (n_connect s); EvLogin (n_connect s); EvQuit (n_connect s)])) \/
    (exists e,
     quit_ok w (n_quit s) = false /\
     match quit_result w (n_quit s) with
     | None | Some (SMTPServerDisconnected _) =>
         (match login_result w (n_login s) with
          | None => Ok true
          | Some e => Raise e
          end,
          tick_quit (tick_login (tick_connect s)),
          [EvConnect (n_connect s); EvLogin (n_connect s); EvQuit (n_connect s)])
     | Some e =>
         (Raise e, tick_quit (tick_login (tick_connect s)),
          [EvConnect (n_connect s); EvLogin (n_connect s); EvQuit (n_connect s)])
     end =
     (@Raise bool e, tick_quit (tick_login (tick_connect s)),
      [EvConnect (n_connect s); EvLogin (n_connect s); EvQuit (n_connect s)]))).
  { unfold quit_ok. destruct (quit_result w (n_quit s)) as [[m|m|m]|]; eauto. }
  destruct Hpre as [[Hq ->] | (e & Hqf & ->)].
  2:{ right. eexists e, _, 3%nat. stopped. }
  destruct (login_result w (n_login s)) as [e|] eqn:Hl.
  { right. eexists e, _, 3%nat. stopped. }
  unfold bind at 1. unfold _read_template, read_template_file at 1. fields.
  destruct (template_file w (n_read s)) as [html|e] eqn:Hr.
  2:{ right. eexists e, _, 4%nat. stopped. }
  unfold bind at 1. unfold _read_recipients at 1.
  destruct (recipients_csv w) as [rs|e] eqn:Hrs.
  2:{ right. eexists e, _, 5%nat. stopped. }
  unfold bind at 1. unfold open_results at 1. cbn [bind emit modify app].
  unfold bind at 1. unfold writerow at 1. cbn [bind emit modify app].
  unfold try_except, with_SMTP_SSL.
  unfold bind at 1. unfold SMTP_SSL at 1. fields.
  destruct (connect_result w (S (n_connect s))) as [e|] eqn:Hc'.
  { right. eexists e, _, 8%nat. stopped. }
  unfold finally, session.
  unfold bind at 1. cbn [modify]. unfold bind at 1. unfold login at 1. fields.
  destruct (login_result w (S (n_login s))) as [e|] eqn:Hl'.
  2:{ left. exists rs. repeat split; eauto. }
  right. rewrite smtp_exit_run. fields.
  destruct (quit_ok w (S (n_quit s))).
  - eexists e, _, 10%nat. stopped.
  - destruct (quit_result w (S (n_quit s))) as [e'|].
    + eexists e', _, 10%nat. stopped.
    + eexists e, _, 10%nat. stopped.
Qed.

End Anatomy.

Section Interrupted.

Variable w : world.
Variable cfg : config.

(** An attempt that raises has written no row. *)
Lemma try_attempt_rows_raise (r : recipient) (a : Z) (s s' : state)
    (t : list event) (e : exn) :
  try_attempt w cfg r a s = (Raise e, s', t) ->
  rows_written t = [] /\ results_file s' = results_file s.
Proof.
  intros Htry.
  destruct (limit_trace_silent w cfg s) as (_ & Hrows0 & _).
  destruct (limited_frame w cfg s) as (_ & _ & Hfile0 & _).
  destruct (attempt_body w cfg r s) as [[[c|e0] s1] t1] eqn:Hbody.
  - rewrite (try_attempt_ok w cfg _ a _ _ _ _ Hbody) in Htry. discriminate.
  - rewrite (try_attempt_raise w cfg _ a _ _ _ _ Hbody), on_error_run in Htry.
    destruct (attempt_body_raise w cfg _ _ _ _ _ Hbody) as (t' & -> & Hdel).
    destruct (deliver_raise w cfg _ _ _ _ _ Hdel)
      as (Hrows & _ & _ & _ & _ & _ & Hfile & _).
    destruct (is_disconnected e0).
    + destruct (a <? retries - 1).
      * destruct (connect_result w (n_connect s1)).
        { inversion Htry; subst. rewrite !rows_written_app, Hrows0, Hrows.
          cbn. rewrite Hfile, Hfile0. auto. }
        destruct (login_result w (n_login s1)); [|discriminate].
        inversion Htry; subst. rewrite !rows_written_app, Hrows0, Hrows.
        cbn. rewrite Hfile, Hfile0. auto.
      * inversion Htry; subst. rewrite !rows_written_app, Hrows0, Hrows.
        cbn. rewrite Hfile, Hfile0. auto.
    + destruct (lookup "email" r); [discriminate|].
      inversion Htry; subst. rewrite !rows_written_app, Hrows0, Hrows.
      cbn. rewrite Hfile, Hfile0. auto.
Qed.

(** A retry loop that raises has written no row. *)
Lemma retry_loop_rows_raise (r : recipient) (to : string) (attempts : list Z) :
  lookup "email" r = Some to ->
  forall s s' t e,
    retry_loop w cfg r attempts s = (Raise e, s', t) ->
    rows_written t = [] /\ results_file s' = results_file s.
Proof.
  intros Hto. induction attempts as [|a rest IH]; intros s s' t e Hloop.
  - discriminate.
  - rewrite retry_loop_cons in Hloop.
    destruct (try_attempt w cfg r a s) as [[[c|e0] s1] t1] eqn:Htry.
    + destruct (try_attempt_rows w cfg _ _ _ _ _ _ _ Hto Htry)
        as [(-> & _) | (-> & _ & Hrows & Hfile)]; [discriminate|].
      destruct (retry_loop w cfg r rest s1) as [[res s2] t2] eqn:Hrec.
      inversion Hloop; subst.
      destruct (IH _ _ _ _ Hrec) as [Hrows2 Hfile2].
      rewrite rows_written_app, Hrows, Hrows2, Hfile2, Hfile. auto.
    + inversion Hloop; subst.
      exact (try_attempt_rows_raise _ _ _ _ _ _ Htry).
Qed.

(** However the loop over the recipients ends, it has appended the rows of
    the recipients it got through, in order: all of them when it ends
    normally, fewer when it raises. *)
Lemma send_loop_rows_any (rs : list recipient) :
  forall s res s' t rows0,
    results_file s = Some rows0 ->
    send_loop w cfg rs s = (res, s', t) ->
    exists k rows,
      Forall2 outcome_of (firstn k rs) rows /\
      rows_written t = rows /\
      results_file s' = Some (rows0 ++ rows) /\
      match res with
      | Ok _ => k = List.length rs
      | Raise _ => (k < List.length rs)%nat
      end.
Proof.
  induction rs as [|r rs IH]; intros s res s' t rows0 Hfile Hloop.
  - inversion Hloop; subst. exists 0%nat, []. rewrite app_nil_r. cbn. auto.
  - rewrite send_loop_cons, process_recipient_run in Hloop.
    destruct (lookup "email" r) as [to|] eqn:Hto.
    2:{ inversion Hloop; subst. exists 0%nat, []. rewrite app_nil_r.
        cbn. repeat split; auto. lia. }
    destruct (retry_loop w cfg r (range retries) s) as [[[[]|e] s1] t1] eqn:Hretry.
    + destruct (retry_loop_rows w cfg r to _ Hto range_retries_ends _ _ _ Hretry)
        as (line & Hline & Hrows & Hfile1).
      rewrite Hfile in Hfile1. cbn in Hfile1.
      destruct (send_loop w cfg rs s1) as [[res2 s2] t2] eqn:Hrest.
      inversion Hloop; subst.
      destruct (IH _ _ _ _ _ Hfile1 Hrest) as (k & rows & Hall & Hrows2 & Hfile2 & Hk).
      exists (S k), (line :: rows). split; [cbn; constructor; assumption|].
      rewrite rows_written_app, Hrows, Hrows2, Hfile2, <- app_assoc.
      repeat split; auto. destruct res; cbn; lia.
    + inversion Hloop; subst.
      destruct (retry_loop_rows_raise r to _ Hto _ _ _ _ Hretry) as [Hrows Hfile1].
      exists 0%nat, []. rewrite app_nil_r, Hrows, Hfile1, Hfile.
      cbn. repeat split; auto. lia.
Qed.

(** X1.  However a run ends, once it has opened the results file the file
    holds the header and then the rows of the recipients the run got
    through: the first [k] of the list of recipients, in their order, one
    row each; these are the rows the run has written.  A run that ends
    normally has got through all of them.  When the loop over the
    recipients ends with an exception, [k] is less than their number: the
    recipient at which the loop was aborted, and every later one, has no
    row.  A run that does not get to the loop leaves the header alone. *)
Theorem results_are_a_prefix (s s' : state) (res : outcome unit) (t : list event) :
  send_newsletters w cfg s = (res, s', t) ->
  In EvOpenResults t ->
  exists rs k rows,
    recipients_csv w = inl rs /\
    (k <= List.length rs)%nat /\
    Forall2 outcome_of (firstn k rs) rows /\
    List.length rows = k /\
    results_file s' = Some (header :: rows) /\
    rows_written t = header :: rows /\
    (res = Ok tt -> k = List.length rs) /\
    (reaches_loop w s rs ->
     match fst (fst (send_loop w cfg rs (loop_entry s))) with
     | Ok _ => k = List.length rs
     | Raise _ => (k < List.length rs)%nat
     end) /\
    (~ reaches_loop w s rs -> k = 0%nat).
Proof.
  intros Hrun Hopen.
  destruct (send_newsletters_cases w cfg s)
    as [(rs & Hreach) | (e & s0 & k & Hstop & Hk & _ & Hfile & Hrs & Hnot)].
  - rewrite (send_newsletters_run w cfg s rs Hreach) in Hrun.
    destruct (send_loop w cfg rs (loop_entry s)) as [[res1 s1] t1] eqn:Hloop.
    assert (Hentry : results_file (loop_entry s) = Some ([] ++ [header])) by reflexivity.
    destruct (send_loop_rows_any rs _ _ _ _ _ Hentry Hloop)
      as (k & rows & Hall & Hrows & Hfile1 & Hk).
    assert (Hlen : (k <= List.length rs)%nat) by (destruct res1; lia).
    assert (Hcount : List.length rows = k).
    { rewrite <- (Forall2_length Hall). apply firstn_length_le. exact Hlen. }
    pose proof Hreach as (_ & _ & _ & _ & Hcsv & _).
    assert (Hexit : exists r2 s2,
              smtp_exit w (S (n_connect s)) s1 = (r2, s2, [EvQuit (S (n_connect s))]) /\
              results_file s2 = results_file s1).
    { rewrite smtp_exit_run. destruct (quit_ok w (n_quit s1)); [eauto|].
      destruct (quit_result w (n_quit s1)); eauto. }
    destruct Hexit as (r2 & s2 & Hexit & Hf).
    rewrite Hexit in Hrun.
    assert (Hres : res = Ok tt -> res1 = Ok tt).
    { destruct r2 as [[]|e2]; inversion Hrun; auto. discriminate. }
    assert (Hstate : s' = s2 /\ t = prologue s ++ t1 ++ [EvQuit (S (n_connect s))]).
    { destruct r2 as [[]|e2]; inversion Hrun; auto. }
    destruct Hstate as [-> ->].
    exists rs, k, rows. split; [exact Hcsv|]. split; [exact Hlen|].
    split; [exact Hall|]. split; [exact Hcount|].
    split. { rewrite Hf, Hfile1. reflexivity. }
    split. { cbn [rows_written prologue app].
             rewrite rows_written_app, Hrows. cbn. rewrite app_nil_r. reflexivity. }
    split. { intros Hok. rewrite (Hres Hok) in Hk. exact Hk. }
    split. { intros _. rewrite Hloop. cbn [fst]. exact Hk. }
    intros Hno. contradiction.
  - rewrite Hstop in Hrun. inversion Hrun; subst.
    cbn in Hk.
    destruct Hk as [<-|[<-|[<-|[<-|[<-|[<-|[]]]]]]]; cbn in Hopen;
      try (repeat (destruct Hopen as [Hopen|Hopen]; try discriminate Hopen);
           contradiction).
    + destruct (Hrs eq_refl) as (rs & Hcsv).
      exists rs, 0%nat, []. cbn in *.
      repeat split; auto; try lia; try discriminate.
      intros Hreach. destruct (Hnot rs Hreach).
    + destruct (Hrs eq_refl) as (rs & Hcsv).
      exists rs, 0%nat, []. cbn in *.
      repeat split; auto; try lia; try discriminate.
      intros Hreach. destruct (Hnot rs Hreach).
Qed.

End Interrupted.

(** ** Relations between the start and the end of a run

    What relates the two ends of every attempt relates the two ends of the
    run, for relations that the code around the attempts respects. *)

Section Relations.

Variable R : state -> state -> list event -> Prop.
Hypothesis R_refl : forall s, R s s [].
Hypothesis R_trans :
  forall s s1 s2 t1 t2, R s s1 t1 -> R s1 s2 t2 -> R s s2 (t1 ++ t2).

Lemma follows_ret {A} (a : A) : follows R (ret a).
Proof. intros s. apply R_refl. Qed.

Lemma follows_raise {A} (e : exn) : follows R (@raise A e).
Proof. intros s. apply R_refl. Qed.

Lemma follows_bind {A B} (m : M A) (k : A -> M B) :
  follows R m -> (forall a, follows R (k a)) -> follows R (bind m k).
Proof.
  intros Hm Hk s. unfold bind. specialize (Hm s).
  destruct (m s) as [[[a|e] s1] t1]; cbn [fst snd] in *; [|exact Hm].
  specialize (Hk a s1).
  destruct (k a s1) as [[r s2] t2]; cbn [fst snd] in *. eauto.
Qed.

Lemma follows_try_except {A} (m : M A) (h : exn -> M A) :
  follows R m -> (forall e, follows R (h e)) -> follows R (try_except m h).
Proof.
  intros Hm Hh s. unfold try_except. specialize (Hm s).
  destruct (m s) as [[[a|e] s1] t1]; cbn [fst snd] in *; [exact Hm|].
  specialize (Hh e s1).
  destruct (h e s1) as [[r s2] t2]; cbn [fst snd] in *. eauto.
Qed.

Lemma follows_finally {A} (m : M A) (f : M unit) :
  follows R m -> follows R f -> follows R (finally m f).
Proof.
  intros Hm Hf s. unfold finally. specialize (Hm s).
  destruct (m s) as [[r s1] t1]; cbn [fst snd] in *.
  specialize (Hf s1).
  destruct (f s1) as [[[[]|e] s2] t2]; cbn [fst snd] in *; eauto.
Qed.

Lemma follows_for_in {A} (xs : list A) (body : A -> M ctl) :
  (forall x, follows R (body x)) -> follows R (for_in xs body).
Proof.
  intros Hbody. induction xs as [|x xs IH]; cbn [for_in].
  - apply follows_ret.
  - apply follows_bind; [apply Hbody|].
    intros [|]; [exact IH | apply follows_ret].
Qed.

Section Run.

Variable w : world.
Variable cfg : config.

Hypothesis R_silent : forall s s', same_self s s' -> R s s' [].
Hypothesis R_around :
  forall s s' e, around e = true -> same_self s s' -> R s s' [e].

(** An effect of the code around the attempts. *)
Lemma follows_effect {A} (m : M A) :
  (forall s, same_self s (snd (fst (m s))) /\
             exists e, around e = true /\ snd (m s) = [e]) ->
  follows R m.
Proof.
  intros Hm s. destruct (Hm s) as (Hs & e & He & Ht). rewrite Ht. auto.
Qed.

Lemma follows_SMTP_SSL : follows R (SMTP_SSL w).
Proof.
  apply follows_effect. intros s. unfold SMTP_SSL.
  destruct (connect_result w (n_connect s)); one_around_event.
Qed.

Lemma follows_login (sid : nat) : follows R (login w sid).
Proof.
  apply follows_effect. intros s. unfold login.
  destruct (login_result w (n_login s)); one_around_event.
Qed.

Lemma follows_smtp_exit (sid : nat) : follows R (smtp_exit w sid).
Proof.
  apply follows_effect. intros s. unfold smtp_exit.
  destruct (quit_result w (n_quit s)) as [[m|m|m]|]; one_around_event.
Qed.

Lemma follows_read_template_file : follows R (read_template_file w).
Proof.
  apply follows_effect. intros s. unfold read_template_file.
  destruct (template_file w (n_read s)); one_around_event.
Qed.

Lemma follows_read_recipients : follows R (_read_recipients w).
Proof.
  apply follows_effect. intros s. unfold _read_recipients.
  destruct (recipients_csv w); one_around_event.
Qed.

Lemma follows_open_results : follows R open_results.
Proof. apply follows_effect. intros s. one_around_event. Qed.

Lemma follows_write_header : follows R (writerow header).
Proof. apply follows_effect. intros s. one_around_event. Qed.

Lemma follows_getitem (r : recipient) (k : string) : follows R (getitem r k).
Proof.
  unfold getitem. destruct (lookup k r); [apply follows_ret | apply follows_raise].
Qed.

Lemma follows_set_server (sid : nat) : follows R (modify (set_server sid)).
Proof. intros s. apply R_silent. split; reflexivity. Qed.

Lemma follows_with_SMTP_SSL {A} (body : nat -> M A) :
  (forall sid, follows R (body sid)) -> follows R (with_SMTP_SSL w body).
Proof.
  intros Hbody. unfold with_SMTP_SSL.
  apply follows_bind; [apply follows_SMTP_SSL|].
  intros sid. apply follows_finally; [apply Hbody | apply follows_smtp_exit].
Qed.

(** What relates the ends of every attempt relates the ends of a run. *)
Lemma follows_send_newsletters :
  (forall r a, follows R (try_attempt w cfg r a)) ->
  follows R (send_newsletters w cfg).
Proof.
  intros Hattempt. unfold send_newsletters.
  apply follows_bind; [|intros _].
  { unfold _test_smtp_connection.
    apply follows_try_except; [|intros e; apply follows_raise].
    apply follows_with_SMTP_SSL. intros sid.
    apply follows_bind; [apply follows_login | intros _; apply follows_ret]. }
  apply follows_bind; [apply follows_read_template_file | intros _].
  apply follows_bind; [apply follows_read_recipients | intros rs].
  apply follows_bind; [apply follows_open_results | intros _].
  apply follows_bind; [apply follows_write_header | intros _].
  apply follows_try_except; [|intros e; apply follows_raise].
  apply follows_with_SMTP_SSL. intros sid. unfold session.
  apply follows_bind; [apply follows_set_server | intros _].
  apply follows_bind; [apply follows_login | intros _].
  unfold send_loop. apply follows_for_in. intros r. unfold process_recipient.
  apply follows_bind; [apply follows_getitem | intros _].
  apply follows_bind; [|intros _; apply follows_ret].
  unfold retry_loop. apply follows_for_in. intros a. apply Hattempt.
Qed.

End Run.

End Relations.

Section Accounting.

Variable w : world.
Variable cfg : config.

Lemma successes_app (t1 t2 : list event) :
  successes (t1 ++ t2) = successes t1 + successes t2.
Proof.
  unfold successes. rewrite rows_written_app, filter_app, length_app. lia.
Qed.

Lemma resets_app (t1 t2 : list event) :
  resets (t1 ++ t2) = resets t1 + resets t2.
Proof.
  unfold resets. rewrite counts_assigned_app, count_occ_app. lia.
Qed.

(** The rate-limit check reports no success, and one reset when the batch
    was full. *)
Lemma limit_trace_account (s : state) :
  successes (limit_trace w cfg s) = 0 /\
  resets (limit_trace w cfg s) =
  if sent_count s >=? emails_per_batch (rate_limit cfg) then 1 else 0.
Proof.
  destruct (limit_trace_silent w cfg s) as (_ & Hrows & _).
  unfold successes, resets.
  rewrite Hrows, limit_trace_counts.
  destruct (sent_count s >=? _); auto.
Qed.

(** The [except] clauses report no success. *)
Lemma on_error_account (a : Z) (r : recipient) (e : exn) (s : state) :
  successes (snd (on_error w a r e s)) = 0.
Proof.
  rewrite on_error_run.
  destruct (is_disconnected e).
  - destruct (a <? retries - 1); [|reflexivity].
    destruct (connect_result w (n_connect s)); [reflexivity|].
    destruct (login_result w (n_login s)); reflexivity.
  - destruct (lookup "email" r); reflexivity.
Qed.

(** One attempt: the counter moves by the successes, less a batch for each
    reset. *)
Lemma try_attempt_account (r : recipient) (a : Z) (s : state) :
  1 <= emails_per_batch (rate_limit cfg) ->
  0 <= sent_count s <= emails_per_batch (rate_limit cfg) ->
  let s' := snd (fst (try_attempt w cfg r a s)) in
  let t := snd (try_attempt w cfg r a s) in
  0 <= sent_count s' <= emails_per_batch (rate_limit cfg) /\
  sent_count s' =
  sent_count s + successes t - emails_per_batch (rate_limit cfg) * resets t.
Proof.
  intros Hbatch Hs. cbv zeta.
  set (B := emails_per_batch (rate_limit cfg)) in *.
  pose proof (limited_sent_count w cfg s) as Hc0.
  destruct (limit_trace_account s) as [Hsucc0 Hres0].
  fold B in Hc0, Hres0.
  assert (H0 : 0 <= sent_count (limited w cfg s) < B /\
               sent_count (limited w cfg s) =
               sent_count s - B * resets (limit_trace w cfg s)).
  { rewrite Hc0, Hres0. destruct (sent_count s >=? B) eqn:Hfull.
    - apply Z.geb_le in Hfull. lia.
    - rewrite Z.geb_leb in Hfull. apply Z.leb_gt in Hfull. lia. }
  destruct H0 as [Hrange Heq].
  destruct (attempt_body w cfg r s) as [[[c|e] s1] t1] eqn:Hbody.
  - rewrite (try_attempt_ok w cfg _ a _ _ _ _ Hbody). cbn [fst snd].
    rewrite attempt_body_run, deliver_run in Hbody.
    destruct (lookup "email" r) as [to|]; [|discriminate].
    destruct (template_file w _) as [html|]; [|discriminate].
    cbv zeta in Hbody. destruct (send_result w _); [discriminate|].
    inversion Hbody; subst; clear Hbody.
    rewrite successes_app, resets_app, Hsucc0.
    unfold successes at 1, resets at 2. cbn [rows_written counts_assigned].
    cbn [filter is_success String.eqb Ascii.eqb Bool.eqb List.length count_occ].
    destruct (Z.eq_dec (sent_count (limited w cfg s) + 1) 0) as [F|_]; [lia|].
    cbn [delivered sent_count set_last_send_time tick_time set_sent_count].
    fold B. lia.
  - pose proof (try_attempt_raise w cfg _ a _ _ _ _ Hbody) as Htry.
    pose proof (on_error_account a r e s1) as Hsucc2.
    destruct (on_error w a r e s1) as [[res s2] t2] eqn:Herr.
    rewrite Htry. cbn [fst snd] in *.
    destruct (on_error_frame w _ _ _ _ _ _ _ Herr) as (Hc & _ & Hca & _).
    destruct (attempt_body_raise w cfg _ _ _ _ _ Hbody) as (t' & -> & Hdel).
    destruct (deliver_raise w cfg _ _ _ _ _ Hdel) as (Hrows' & Hca' & _ & _ & Hc' & _).
    rewrite !successes_app, !resets_app, Hsucc0, Hsucc2.
    assert (Hs' : successes t' = 0) by (unfold successes; rewrite Hrows'; reflexivity).
    assert (Hr' : resets t' = 0) by (unfold resets; rewrite Hca'; reflexivity).
    assert (Hr2 : resets t2 = 0) by (unfold resets; rewrite Hca; reflexivity).
    rewrite Hs', Hr', Hr2. lia.
Qed.

(** X2.  The counter accounts for the successes of a run.  With a batch
    size of at least 1 and a counter between 0 and the batch size at the
    start, the counter at the end of a run, however the run ends, is the
    counter at the start plus the number of success rows written, less
    one batch size for each time the counter was set back to 0.  For a
    process started by [main] the counter starts at 0. *)
Theorem counter_accounts_for_successes :
  1 <= emails_per_batch (rate_limit cfg) ->
  (forall s,
     0 <= sent_count s <= emails_per_batch (rate_limit cfg) ->
     sent_count (snd (fst (send_newsletters w cfg s))) =
     sent_count s + successes (snd (send_newsletters w cfg s))
     - emails_per_batch (rate_limit cfg) * resets (snd (send_newsletters w cfg s)))
  /\
  sent_count (snd (fst (main w (inl cfg)))) =
  successes (snd (main w (inl cfg)))
  - emails_per_batch (rate_limit cfg) * resets (snd (main w (inl cfg))).
Proof.
  intros Hbatch.
  set (B := emails_per_batch (rate_limit cfg)) in *.
  set (R := fun s s' t =>
              0 <= sent_count s <= B ->
              0 <= sent_count s' <= B /\
              sent_count s' = sent_count s + successes t - B * resets t).
  assert (Hrun : forall s, R s (snd (fst (send_newsletters w cfg s)))
                             (snd (send_newsletters w cfg s))).
  { apply (follows_send_newsletters R).
    - intros s Hs. cbn. lia.
    - intros s s1 s2 t1 t2 H1 H2 Hs.
      destruct (H1 Hs) as [Hs1 E1]. destruct (H2 Hs1) as [Hs2 E2].
      rewrite successes_app, resets_app. lia.
    - intros s s' [Hc _] Hs. rewrite Hc. cbn. lia.
    - intros s s' e He [Hc _] Hs. rewrite Hc.
      destruct e; try discriminate He; cbn; try lia.
      cbn in He. destruct (list_eq_dec string_dec r header) as [->|]; [|discriminate].
      cbn. lia.
    - intros r a s Hs. exact (try_attempt_account r a s Hbatch Hs). }
  split.
  - intros s Hs. exact (proj2 (Hrun s Hs)).
  - unfold main, __init__, _load_config, try_except.
    assert (H0 : 0 <= sent_count init <= B) by (cbn; lia).
    pose proof (proj2 (Hrun init H0)) as Hinit.
    destruct (send_newsletters w cfg init) as [[[[]|e] s1] t1]; cbn [fst snd] in *.
    + exact Hinit.
    + cbn. rewrite app_nil_r. exact Hinit.
Qed.

(** The limiter sleeps for positive times only. *)
Lemma limit_trace_pauses (s : state) :
  Forall (fun d => (0 < d)%Q) (pauses (limit_trace w cfg s)).
Proof.
  unfold limit_trace. rewrite rate_limit_run.
  destruct (sent_count s >=? _).
  - cbn [snd pauses]. rewrite pauses_app, pauses_sleeps. cbn [pauses].
    rewrite app_nil_r. apply Forall_forall. intros d Hd.
    apply repeat_spec in Hd. subst d. reflexivity.
  - cbv zeta. destruct (Qltb _ _) eqn:Hsoon; cbn; constructor; [|constructor].
    apply Qltb_lt in Hsoon. apply Qlt_minus_iff in Hsoon. exact Hsoon.
Qed.

(** X3.  In a run, [time.sleep] is only ever called with a positive
    duration: one second in a batch pause, five seconds before a
    reconnection, and what is left of the delay between two emails, which
    is only slept when something is left. *)
Theorem sleeps_are_positive (s : state) :
  Forall (fun d => (0 < d)%Q) (pauses (snd (send_newsletters w cfg s))).
Proof.
  set (R := fun (_ _ : state) t => Forall (fun d => (0 < d)%Q) (pauses t)).
  apply (follows_send_newsletters R).
  - intros s0. constructor.
  - intros s0 s1 s2 t1 t2 H1 H2. unfold R. rewrite pauses_app.
    apply Forall_app. auto.
  - intros s0 s' _. constructor.
  - intros s0 s' e He _. destruct e; try discriminate He; constructor.
  - intros r a s0. unfold R, try_attempt, try_except.
    pose proof (limit_trace_pauses s0) as H0.
    rewrite attempt_body_run, deliver_run.
    assert (Herr : forall e s1, Forall (fun d => (0 < d)%Q)
                                       (pauses (snd (on_error w a r e s1)))).
    { intros e s1. rewrite on_error_run.
      destruct (is_disconnected e).
      - destruct (a <? retries - 1); [|constructor].
        destruct (connect_result w (n_connect s1));
          [cbn; constructor; [reflexivity | constructor]|].
        destruct (login_result w (n_login s1));
          cbn; constructor; try reflexivity; constructor.
      - destruct (lookup "email" r); constructor. }
    destruct (lookup "email" r) as [to|].
    + destruct (template_file w _) as [html|e].
      * cbv zeta. destruct (send_result w _) as [e|].
        -- specialize (Herr e (tick_send (tick_read (limited w cfg s0)))).
           destruct (on_error w a r e _) as [[res s2] t2]. cbn [snd] in *.
           rewrite !pauses_app. cbn [pauses]. rewrite ?app_nil_r.
           apply Forall_app. split; assumption.
        -- cbn [snd]. rewrite pauses_app. cbn [pauses]. rewrite app_nil_r. exact H0.
      * specialize (Herr e (tick_read (limited w cfg s0))).
        destruct (on_error w a r e _) as [[res s2] t2]. cbn [snd] in *.
        rewrite !pauses_app. cbn [pauses]. rewrite ?app_nil_r.
           apply Forall_app. split; assumption.
    + specialize (Herr (Exception "'email'") (limited w cfg s0)).
      destruct (on_error w a r _ _) as [[res s2] t2]. cbn [snd] in *.
      rewrite !pauses_app. cbn [pauses]. rewrite ?app_nil_r.
      apply Forall_app. split; assumption.
Qed.

End Accounting.

Section Safety.

Variable w : world.
Variable cfg : config.

(** *** Who gets mail *)

Lemma try_attempt_sends_to (r : recipient) (a : Z) (s : state) (m : message) :
  In m (sends (snd (try_attempt w cfg r a s))) ->
  msg_Subject m = subject (email cfg) /\
  msg_From m = from (email cfg) /\
  lookup "email" r = Some (msg_To m).
Proof.
  destruct (limit_trace_silent w cfg s) as (Hs0 & _).
  unfold try_attempt, try_except. rewrite attempt_body_run, deliver_run.
  assert (Herr : forall e s1, sends (snd (on_error w a r e s1)) = []).
  { intros e s1. destruct (on_error w a r e s1) as [[res s2] t2] eqn:Herr.
    exact (proj2 (proj2 (proj2 (proj2 (on_error_frame w _ _ _ _ _ _ _ Herr))))). }
  destruct (lookup "email" r) as [to|].
  - destruct (template_file w _) as [html|e].
    + cbv zeta. destruct (send_result w _) as [e|].
      * specialize (Herr e (tick_send (tick_read (limited w cfg s)))).
        destruct (on_error w a r e _) as [[res s2] t2]. cbn [snd] in *.
        rewrite !sends_app, Hs0, Herr. cbn.
        intros [<-|[]]. auto.
      * cbn [snd]. rewrite sends_app, Hs0. cbn. intros [<-|[]]. auto.
    + specialize (Herr e (tick_read (limited w cfg s))).
      destruct (on_error w a r e _) as [[res s2] t2]. cbn [snd] in *.
      rewrite !sends_app, Hs0, Herr. cbn. intros [].
  - specialize (Herr (Exception "'email'") (limited w cfg s)).
    destruct (on_error w a r _ _) as [[res s2] t2]. cbn [snd] in *.
    rewrite !sends_app, Hs0, Herr. cbn. intros [].
Qed.

Lemma retry_loop_sends_to (r : recipient) (attempts : list Z) (s : state) (m : message) :
  In m (sends (snd (retry_loop w cfg r attempts s))) ->
  msg_Subject m = subject (email cfg) /\
  msg_From m = from (email cfg) /\
  lookup "email" r = Some (msg_To m).
Proof.
  revert s. induction attempts as [|a rest IH]; intros s; [intros []|].
  rewrite retry_loop_cons.
  pose proof (try_attempt_sends_to r a s m) as Ha.
  destruct (try_attempt w cfg r a s) as [[[[|]|e] s1] t1]; cbn [snd] in *; auto.
  specialize (IH s1).
  destruct (retry_loop w cfg r rest s1) as [[res s2] t2]. cbn [snd] in *.
  rewrite sends_app, in_app_iff. intros [H|H]; auto.
Qed.

Lemma send_loop_sends_to (rs : list recipient) (s : state) (m : message) :
  In m (sends (snd (send_loop w cfg rs s))) ->
  msg_Subject m = subject (email cfg) /\
  msg_From m = from (email cfg) /\
  exists r, In r rs /\ lookup "email" r = Some (msg_To m).
Proof.
  revert s. induction rs as [|r rs IH]; intros s; [intros []|].
  rewrite send_loop_cons, process_recipient_run.
  destruct (lookup "email" r) as [to|] eqn:Hto; [|intros []].
  pose proof (retry_loop_sends_to r (range retries) s m) as Hr.
  destruct (retry_loop w cfg r (range retries) s) as [[[[]|e] s1] t1]; cbn [snd] in *.
  - specialize (IH s1).
    destruct (send_loop w cfg rs s1) as [[res s2] t2]. cbn [snd] in *.
    rewrite sends_app, in_app_iff. intros [H|H].
    + destruct (Hr H) as (Hsub & Hfrom & Hm). rewrite Hto in Hm.
      repeat split; auto. exists r. rewrite Hto. split; [left; reflexivity | exact Hm].
    + destruct (IH H) as (Hsub & Hfrom & r' & Hin & Hm).
      repeat split; auto. exists r'. split; [right; exact Hin | exact Hm].
  - intros H. destruct (Hr H) as (Hsub & Hfrom & Hm). rewrite Hto in Hm.
    repeat split; auto. exists r. rewrite Hto. split; [left; reflexivity | exact Hm].
Qed.

Lemma smtp_exit_trace (sid : nat) (s : state) :
  snd (smtp_exit w sid s) = [EvQuit sid] /\
  snd (fst (smtp_exit w sid s)) = tick_quit s.
Proof.
  unfold smtp_exit. destruct (quit_result w (n_quit s)) as [[m|m|m]|]; auto.
Qed.

(** The trace of a run that has reached the loop. *)
Lemma send_newsletters_trace (s : state) (rs : list recipient) :
  reaches_loop w s rs ->
  snd (send_newsletters w cfg s) =
  prologue s ++ snd (send_loop w cfg rs (loop_entry s)) ++ [EvQuit (S (n_connect s))].
Proof.
  intros Hreach. rewrite (send_newsletters_run w cfg s rs Hreach).
  destruct (send_loop w cfg rs (loop_entry s)) as [[res s1] t1]. cbn [snd].
  destruct (smtp_exit_trace (S (n_connect s)) s1) as [Ht _].
  destruct (smtp_exit w (S (n_connect s)) s1) as [[[[]|e] s2] t2];
    cbn [snd] in *; rewrite Ht; reflexivity.
Qed.

(** X4.  Every message a run hands to the server carries the subject and
    the sender of the configuration and goes to the address of a row of the
    recipients file: no mail goes anywhere else. *)
Theorem mail_goes_to_recipients_only (s : state) (m : message) :
  In m (sends (snd (send_newsletters w cfg s))) -> addressed w cfg m.
Proof.
  destruct (send_newsletters_cases w cfg s)
    as [(rs & Hreach) | (e & s0 & k & Hstop & Hk & _)].
  - rewrite (send_newsletters_trace s rs Hreach), !sends_app, !in_app_iff.
    cbn [prologue sends]. intros [[]|[H|[]]].
    destruct (send_loop_sends_to rs _ m H) as (Hsub & Hfrom & r & Hin & Hm).
    destruct Hreach as (_ & _ & _ & _ & Hcsv & _).
    split; [exact Hsub|]. split; [exact Hfrom|]. exists rs, r. auto.
  - rewrite Hstop. cbn [snd]. cbn in Hk.
    destruct Hk as [<-|[<-|[<-|[<-|[<-|[<-|[]]]]]]]; intros [].
Qed.

(** *** What a success row stands for *)








End Safety.

Section Sessions.

Variable w : world.
Variable cfg : config.

Lemma quits_app (t1 t2 : list event) : quits (t1 ++ t2) = quits t1 ++ quits t2.
Proof.
  induction t1 as [|e t1 IH]; simpl; [reflexivity|].
  destruct e; simpl; rewrite ?IH; reflexivity.
Qed.

Lemma connects_app (t1 t2 : list event) :
  connects (t1 ++ t2) = connects t1 ++ connects t2.
Proof.
  induction t1 as [|e t1 IH]; simpl; [reflexivity|].
  destruct e; simpl; rewrite ?IH; reflexivity.
Qed.

Lemma limit_trace_sessions (s : state) :
  connects (limit_trace w cfg s) = [] /\ quits (limit_trace w cfg s) = [].
Proof.
  unfold limit_trace. rewrite rate_limit_run.
  destruct (sent_count s >=? _).
  - cbn [snd connects quits]. rewrite connects_app, quits_app. cbn.
    rewrite !app_nil_r.
    generalize (Z.to_nat (batch_delay (rate_limit cfg))) as n.
    induction n as [|n [IH1 IH2]]; cbn; auto.
  - cbv zeta. destruct (Qltb _ _); cbn; auto.
Qed.

(** Sessions are numbered upwards, and nothing in an attempt quits one. *)
Lemma try_attempt_sessions (r : recipient) (a : Z) (s : state) :
  let s' := snd (fst (try_attempt w cfg r a s)) in
  let t := snd (try_attempt w cfg r a s) in
  (n_connect s <= n_connect s')%nat /\
  quits t = [] /\
  Forall (fun sid => (n_connect s <= sid)%nat) (connects t).
Proof.
  cbv zeta.
  destruct (limit_trace_sessions s) as [Hc0 Hq0].
  destruct (limited_frame w cfg s) as (_ & _ & _ & _ & _ & Hn0 & _).
  assert (Herr : forall e s1,
    n_connect s1 = n_connect s ->
    (n_connect s <= n_connect (snd (fst (on_error w a r e s1))))%nat /\
    quits (snd (on_error w a r e s1)) = [] /\
    Forall (fun sid => (n_connect s <= sid)%nat) (connects (snd (on_error w a r e s1)))).
  { intros e s1 Hn. rewrite on_error_run.
    destruct (is_disconnected e).
    - destruct (a <? retries - 1); [|cbn; rewrite Hn; auto].
      destruct (connect_result w (n_connect s1)).
      { cbn. rewrite Hn. repeat split; auto. }
      destruct (login_result w (n_login s1)); cbn; rewrite Hn; repeat split; auto.
    - destruct (lookup "email" r); cbn; rewrite Hn; auto. }
  unfold try_attempt, try_except. rewrite attempt_body_run, deliver_run.
  destruct (lookup "email" r) as [to|].
  - destruct (template_file w _) as [html|e].
    + cbv zeta. destruct (send_result w _) as [e|].
      * specialize (Herr e (tick_send (tick_read (limited w cfg s))) Hn0).
        destruct (on_error w a r e _) as [[res s2] t2]. cbn [fst snd] in *.
        rewrite !quits_app, !connects_app, Hc0, Hq0. cbn [quits connects app].
        exact Herr.
      * cbn [fst snd]. rewrite quits_app, connects_app, Hc0, Hq0. cbn.
        rewrite Hn0. auto.
    + specialize (Herr e (tick_read (limited w cfg s)) Hn0).
      destruct (on_error w a r e _) as [[res s2] t2]. cbn [fst snd] in *.
      rewrite !quits_app, !connects_app, Hc0, Hq0. cbn [quits connects app].
      exact Herr.
  - specialize (Herr (Exception "'email'") (limited w cfg s) Hn0).
    destruct (on_error w a r _ _) as [[res s2] t2]. cbn [fst snd] in *.
    rewrite !quits_app, !connects_app, Hc0, Hq0. cbn [quits connects app].
    exact Herr.
Qed.

Lemma send_loop_sessions (rs : list recipient) (s : state) :
  quits (snd (send_loop w cfg rs s)) = [] /\
  Forall (fun sid => (n_connect s <= sid)%nat) (connects (snd (send_loop w cfg rs s))).
Proof.
  set (R := fun s s' t =>
              (n_connect s <= n_connect s')%nat /\ quits t = [] /\
              Forall (fun sid => (n_connect s <= sid)%nat) (connects t)).
  assert (Hrefl : forall s0, R s0 s0 []) by (intros s0; repeat split; auto).
  assert (Htrans : forall s0 s1 s2 t1 t2,
            R s0 s1 t1 -> R s1 s2 t2 -> R s0 s2 (t1 ++ t2)).
  { intros s0 s1 s2 t1 t2 (Hn1 & Hq1 & Hc1) (Hn2 & Hq2 & Hc2).
    split; [lia|]. rewrite quits_app, connects_app, Hq1, Hq2.
    split; [reflexivity|]. apply Forall_app. split; [exact Hc1|].
    eapply Forall_impl; [|exact Hc2]. cbn. intros sid Hsid. lia. }
  assert (Hloop : follows R (send_loop w cfg rs)).
  { unfold send_loop. apply follows_for_in; try assumption.
    intros r. unfold process_recipient.
    apply follows_bind; try assumption.
    { unfold getitem. destruct (lookup "email" r);
        [apply follows_ret | apply follows_raise]; assumption. }
    intros _. apply follows_bind; try assumption.
    2:{ intros _. apply follows_ret; assumption. }
    unfold retry_loop. apply follows_for_in; try assumption.
    intros a s0. exact (try_attempt_sessions r a s0). }
  destruct (Hloop s) as (_ & Hq & Hc). auto.
Qed.

(** X6.  The only sessions a run ever quits are the session of the
    pre-flight check and the first session of the loop, the two [with]
    blocks.  A session opened inside the loop, by a reconnection, has a
    later number: the program never quits it. *)
Theorem reconnections_are_never_quit (s : state) :
  (forall sid, In sid (quits (snd (send_newsletters w cfg s))) ->
               sid = n_connect s \/ sid = S (n_connect s)) /\
  (forall rs sid,
     reaches_loop w s rs ->
     In sid (connects (snd (send_loop w cfg rs (loop_entry s)))) ->
     (S (n_connect s) < sid)%nat /\
     ~ In sid (quits (snd (send_newsletters w cfg s)))).
Proof.
  assert (Hquits : forall sid, In sid (quits (snd (send_newsletters w cfg s))) ->
                               sid = n_connect s \/ sid = S (n_connect s)).
  { intros sid.
    destruct (send_newsletters_cases w cfg s)
      as [(rs & Hreach) | (e & s0 & k & Hstop & Hk & _)].
    - rewrite (send_newsletters_trace w cfg s rs Hreach), !quits_app.
      destruct (send_loop_sessions rs (loop_entry s)) as [Hq _].
      rewrite Hq. cbn. intros [H|[H|[]]]; subst; auto.
    - rewrite Hstop. cbn [snd]. cbn in Hk.
      destruct Hk as [<-|[<-|[<-|[<-|[<-|[<-|[]]]]]]]; cbn;
        intros H; repeat (destruct H as [H|H]; [subst; auto|]); contradiction. }
  split; [exact Hquits|].
  intros rs sid Hreach Hin.
  destruct (send_loop_sessions rs (loop_entry s)) as [_ Hc].
  rewrite Forall_forall in Hc. specialize (Hc sid Hin). cbn in Hc.
  split; [lia|]. intros Hq. destruct (Hquits sid Hq); lia.
Qed.

End Sessions.

Section Edges.

Variable w : world.
Variable cfg : config.

Lemma lookup_combine_none (k : string) (names values : list string) :
  ~ In k names -> lookup k (combine names values) = None.
Proof.
  revert values. induction names as [|n names IH]; intros values Hk; [reflexivity|].
  destruct values as [|v values]; [reflexivity|].
  cbn [combine lookup].
  destruct (String.eqb k n) eqn:Heq.
  - apply String.eqb_eq in Heq. subst n. exfalso. apply Hk. left. reflexivity.
  - apply IH. intros Hin. apply Hk. right. exact Hin.
Qed.

(** X7.  A recipients file whose header names no column [email], with at
    least one line that is not blank.  Every recipient lacks the key, and
    the [KeyError] of line 125, which is outside the [try] of the attempts,
    ends the loop at the first recipient: the run has made its pre-flight
    check and opened the session of the loop, it leaves a results file with
    the header alone, it consults the rate limiter for nobody and sends
    nothing, and it ends with the [KeyError] (or with the exception of the
    QUIT, when leaving the session fails too). *)
Theorem missing_email_column_aborts (s : state) (fieldnames : list string)
    (rows : list (list string)) :
  rectangular (fieldnames :: rows) ->
  ~ In "email" fieldnames ->
  DictReader (fieldnames :: rows) <> [] ->
  reaches_loop w s (DictReader (fieldnames :: rows)) ->
  let t := prologue s ++ [EvQuit (S (n_connect s))] in
  (forall r, In r (DictReader (fieldnames :: rows)) -> lookup "email" r = None) /\
  (exists e,
     send_newsletters w cfg s = (Raise e, tick_quit (loop_entry s), t) /\
     (quit_ok w (S (n_quit s)) = true -> e = Exception "'email'")) /\
  results_file (tick_quit (loop_entry s)) = Some [header] /\
  sends t = [] /\
  checks t = 0.
Proof.
  intros _ Hno Hsome Hreach t.
  assert (Hall : forall r, In r (DictReader (fieldnames :: rows)) ->
                           lookup "email" r = None).
  { intros r Hin. cbn [DictReader] in Hin. apply in_map_iff in Hin.
    destruct Hin as (line & <- & _). apply lookup_combine_none. exact Hno. }
  split; [exact Hall|].
  split; [|repeat split].
  rewrite (send_newsletters_run w cfg s _ Hreach).
  destruct (DictReader (fieldnames :: rows)) as [|r rs]; [contradiction|].
  rewrite send_loop_cons, process_recipient_run, (Hall r (or_introl eq_refl)).
  rewrite smtp_exit_run. change (n_quit (loop_entry s)) with (S (n_quit s)).
  destruct (quit_ok w (S (n_quit s))).
  - eexists. split; [reflexivity | reflexivity].
  - destruct (quit_result w (S (n_quit s))) as [e|];
      eexists; (split; [reflexivity | discriminate]).
Qed.

(** X8.  An empty recipients file: the run still makes the pre-flight
    check and opens the session of the loop, writes a results file that
    holds the header alone, sends nothing, and ends normally when the
    session can be left. *)
Theorem no_recipients (s : state) :
  reaches_loop w s [] ->
  quit_ok w (S (n_quit s)) = true ->
  send_newsletters w cfg s =
  (Ok tt, tick_quit (loop_entry s), prologue s ++ [EvQuit (S (n_connect s))]) /\
  results_file (tick_quit (loop_entry s)) = Some [header] /\
  sends (prologue s ++ [EvQuit (S (n_connect s))]) = [] /\
  connects (prologue s ++ [EvQuit (S (n_connect s))]) = [n_connect s; S (n_connect s)].
Proof.
  intros Hreach Hquit.
  rewrite (send_newsletters_run w cfg s [] Hreach).
  change (send_loop w cfg [] (loop_entry s)) with (@Ok unit tt, loop_entry s, @nil event).
  cbv iota beta. rewrite smtp_exit_run.
  change (n_quit (loop_entry s)) with (S (n_quit s)). rewrite Hquit.
  repeat split.
Qed.

(** X9.  Input files are read after the pre-flight check and before the
    results file is opened.  A template that cannot be read ends the run
    with the exception of the read, before the recipients file is looked
    at; a recipients file that cannot be read ends it likewise.  In both
    cases the server has been contacted once and no results file is
    created. *)
Theorem unreadable_input_aborts (s : state) (e : exn) :
  connect_result w (n_connect s) = None ->
  login_result w (n_login s) = None ->
  quit_ok w (n_quit s) = true ->
  let s' := tick_read (tick_quit (tick_login (tick_connect s))) in
  let checked :=
    [EvConnect (n_connect s); EvLogin (n_connect s); EvQuit (n_connect s)] in
  results_file s' = results_file s /\
  (template_file w (n_read s) = inr e ->
   send_newsletters w cfg s = (Raise e, s', checked ++ [EvReadTemplate])) /\
  (forall html,
     template_file w (n_read s) = inl html ->
     recipients_csv w = inr e ->
     send_newsletters w cfg s =
     (Raise e, s', checked ++ [EvReadTemplate; EvReadRecipients])).
Proof.
  intros Hc Hl Hq s' checked. split; [reflexivity|].
  split.
  - intros Hr. unfold send_newsletters.
    unfold bind at 1. rewrite (test_smtp_connection_ok w s Hc Hl Hq).
    unfold bind at 1. unfold _read_template, read_template_file at 1. fields.
    rewrite Hr. reflexivity.
  - intros html Hr Hrs. unfold send_newsletters.
    unfold bind at 1. rewrite (test_smtp_connection_ok w s Hc Hl Hq).
    unfold bind at 1. unfold _read_template, read_template_file at 1. fields.
    rewrite Hr.
    unfold bind at 1. unfold _read_recipients at 1. rewrite Hrs. reflexivity.
Qed.

(** X10.  A reconnection that fails is not caught.  After a disconnection
    on an attempt that is not the last, an exception of the new connection
    or of its login leaves the retry loop as it is, whatever its class:
    the recipient gets no row, and no further attempt is made.  When it is
    the login that fails, [server] already names the new session. *)
Theorem failed_reconnection_aborts (r : recipient) (a : Z) (rest : list Z)
    (s s1 : state) (t1 : list event) (m : string) (e : exn) :
  attempt_body w cfg r s = (Raise (SMTPServerDisconnected m), s1, t1) ->
  a < retries - 1 ->
  let sid := n_connect s1 in
  rows_written t1 = [] /\
  (connect_result w sid = Some e ->
   retry_loop w cfg r (a :: rest) s =
   (Raise e, tick_connect s1, t1 ++ [EvSleep 5; EvConnect sid]) /\
   server (tick_connect s1) = server s) /\
  (connect_result w sid = None ->
   login_result w (n_login s1) = Some e ->
   retry_loop w cfg r (a :: rest) s =
   (Raise e, reconnected s1, t1 ++ [EvSleep 5; EvConnect sid; EvLogin sid]) /\
   server (reconnected s1) = sid).
Proof.
  intros Hbody Ha sid.
  destruct (attempt_body_raise w cfg _ _ _ _ _ Hbody) as (t' & -> & Hdel).
  destruct (deliver_raise w cfg _ _ _ _ _ Hdel)
    as (Hrows & _ & _ & _ & _ & _ & _ & Hserver & _).
  destruct (limit_trace_silent w cfg s) as (_ & Hrows0 & _).
  destruct (limited_frame w cfg s) as (_ & Hserver0 & _).
  apply Z.ltb_lt in Ha.
  split. { rewrite rows_written_app, Hrows0, Hrows. reflexivity. }
  split.
  - intros Hc.
    rewrite retry_loop_cons, (try_attempt_raise w cfg _ a _ _ _ _ Hbody), on_error_run.
    cbn [is_disconnected]. rewrite Ha. fold sid. rewrite Hc.
    split; [reflexivity|]. cbn. rewrite Hserver, Hserver0. reflexivity.
  - intros Hc Hl.
    rewrite retry_loop_cons, (try_attempt_raise w cfg _ a _ _ _ _ Hbody), on_error_run.
    cbn [is_disconnected]. rewrite Ha. fold sid. rewrite Hc, Hl.
    split; reflexivity.
Qed.

End Edges.

Section BatchPauses.

Variable w : world.
Variable cfg : config.

(** One attempt resets the counter when the batch is full and not
    otherwise; an attempt that is to be retried leaves the counter as the
    check left it, below the batch size. *)
Lemma try_attempt_resets (r : recipient) (a : Z) (s : state) :
  1 <= emails_per_batch (rate_limit cfg) ->
  0 <= sent_count s ->
  resets (snd (try_attempt w cfg r a s)) =
    (if sent_count s >=? emails_per_batch (rate_limit cfg) then 1 else 0) /\
  (fst (fst (try_attempt w cfg r a s)) = Ok Continue ->
   0 <= sent_count (snd (fst (try_attempt w cfg r a s)))
     < emails_per_batch (rate_limit cfg)).
Proof.
  intros Hbatch Hs.
  set (B := emails_per_batch (rate_limit cfg)) in *.
  pose proof (limited_sent_count w cfg s) as Hc0.
  destruct (limit_trace_account w cfg s) as [_ Hres0].
  fold B in Hc0, Hres0.
  assert (Hrange : 0 <= sent_count (limited w cfg s) < B).
  { rewrite Hc0. destruct (sent_count s >=? B) eqn:Hfull; [lia|].
    rewrite Z.geb_leb in Hfull. apply Z.leb_gt in Hfull. lia. }
  destruct (attempt_body w cfg r s) as [[[c|e] s1] t1] eqn:Hbody.
  - rewrite (try_attempt_ok w cfg _ a _ _ _ _ Hbody). cbn [fst snd].
    rewrite attempt_body_run, deliver_run in Hbody.
    destruct (lookup "email" r) as [to|]; [|discriminate].
    destruct (template_file w _) as [html|]; [|discriminate].
    cbv zeta in Hbody. destruct (send_result w _); [discriminate|].
    inversion Hbody; subst; clear Hbody.
    split; [|discriminate].
    rewrite resets_app, Hres0. unfold resets. cbn [counts_assigned count_occ].
    destruct (Z.eq_dec (sent_count (limited w cfg s) + 1) 0) as [F|_]; [lia|].
    cbn. lia.
  - pose proof (try_attempt_raise w cfg _ a _ _ _ _ Hbody) as Htry.
    destruct (on_error w a r e s1) as [[res s2] t2] eqn:Herr.
    rewrite Htry. cbn [fst snd].
    destruct (on_error_frame w _ _ _ _ _ _ _ Herr) as (Hc & _ & Hca & _).
    destruct (attempt_body_raise w cfg _ _ _ _ _ Hbody) as (t' & -> & Hdel).
    destruct (deliver_raise w cfg _ _ _ _ _ Hdel) as (_ & Hca' & _ & _ & Hc' & _).
    split; [|intros _; lia].
    rewrite !resets_app, Hres0.
    assert (Hr' : resets t' = 0) by (unfold resets; rewrite Hca'; reflexivity).
    assert (Hr2 : resets t2 = 0) by (unfold resets; rewrite Hca; reflexivity).
    lia.
Qed.

Lemma retry_loop_resets (r : recipient) (attempts : list Z) (s : state) :
  1 <= emails_per_batch (rate_limit cfg) ->
  0 <= sent_count s ->
  resets (snd (retry_loop w cfg r attempts s)) <=
    (if sent_count s >=? emails_per_batch (rate_limit cfg) then 1 else 0).
Proof.
  intros Hbatch. revert s. induction attempts as [|a rest IH]; intros s Hs.
  - cbn. destruct (sent_count s >=? _); lia.
  - rewrite retry_loop_cons.
    destruct (try_attempt_resets r a s Hbatch Hs) as [Hres Hcont].
    destruct (try_attempt w cfg r a s) as [[[[|]|e] s1] t1]; cbn [fst snd] in *;
      try lia.
    specialize (Hcont eq_refl).
    assert (Hs1 : 0 <= sent_count s1) by lia.
    specialize (IH s1 Hs1).
    destruct (retry_loop w cfg r rest s1) as [[res s2] t2]. cbn [snd] in *.
    rewrite resets_app.
    destruct (sent_count s1 >=? emails_per_batch (rate_limit cfg)) eqn:Hfull.
    + apply Z.geb_le in Hfull. lia.
    + lia.
Qed.

(** X11.  However many attempts a recipient needs, its processing sets the
    counter back at most once, and not at all when the batch was not full:
    a retry after a disconnection does not pay a second batch pause.  (For
    a batch size of at least 1 and a counter that is not negative.) *)
Theorem one_batch_pause_per_recipient (r : recipient) (s : state) :
  1 <= emails_per_batch (rate_limit cfg) ->
  0 <= sent_count s ->
  resets (snd (process_recipient w cfg r s)) <= 1 /\
  (sent_count s < emails_per_batch (rate_limit cfg) ->
   resets (snd (process_recipient w cfg r s)) = 0).
Proof.
  intros Hbatch Hs.
  pose proof (retry_loop_resets r (range retries) s Hbatch Hs) as Hloop.
  assert (Hnonneg : forall t, 0 <= resets t) by (intros t; unfold resets; lia).
  rewrite process_recipient_run.
  destruct (lookup "email" r).
  - destruct (retry_loop w cfg r (range retries) s) as [[[[]|e] s1] t1];
      cbn [snd] in *;
      (split; [destruct (sent_count s >=? _); lia|]);
      intros Hlt; specialize (Hnonneg t1);
      destruct (sent_count s >=? emails_per_batch (rate_limit cfg)) eqn:Hfull;
      try lia; apply Z.geb_le in Hfull; lia.
  - cbn. split; [lia | reflexivity].
Qed.

End BatchPauses.

Section Recovery.

Variable w : world.
Variable cfg : config.

(** An attempt whose send meets a disconnection, followed by a reconnection
    that works: the loop goes on with the next attempt, on the new
    session. *)
Lemma try_attempt_reconnects (r : recipient) (to html m : string) (a : Z) (s : state) :
  lookup "email" r = Some to ->
  template_file w (n_read s) = inl html ->
  send_result w (n_send s) = Some (SMTPServerDisconnected m) ->
  a < retries - 1 ->
  connect_result w (n_connect s) = None ->
  login_result w (n_login s) = None ->
  try_attempt w cfg r a s =
  (Ok Continue, reconnected (tick_send (tick_read (limited w cfg s))),
   limit_trace w cfg s ++
   [EvReadTemplate;
    EvSend (server s) (mkMessage (subject (email cfg)) (from (email cfg)) to html);
    EvSleep 5; EvConnect (n_connect s); EvLogin (n_connect s)]).
Proof.
  intros Hto Hread Hsend Ha Hc Hl.
  destruct (limited_frame w cfg s) as (_ & Hserver & _ & Hns & Hnr & Hnc & Hnl).
  apply Z.ltb_lt in Ha.
  unfold try_attempt, try_except.
  rewrite attempt_body_run, deliver_run, Hto, Hnr, Hread. cbv zeta.
  rewrite Hns, Hsend, Hserver, on_error_run. cbn [is_disconnected]. rewrite Ha.
  fields. rewrite Hnc, Hc, Hnl, Hl. rewrite <- app_assoc. reflexivity.
Qed.

Lemma try_attempt_delivers (r : recipient) (to html : string) (a : Z) (s : state) :
  lookup "email" r = Some to ->
  template_file w (n_read s) = inl html ->
  send_result w (n_send s) = None ->
  try_attempt w cfg r a s =
  (Ok Break, delivered w to (limited w cfg s),
   limit_trace w cfg s ++
   [EvReadTemplate;
    EvSend (server s) (mkMessage (subject (email cfg)) (from (email cfg)) to html);
    EvWriteRow [to; "success"; ""];
    EvSentCount (sent_count (limited w cfg s) + 1);
    EvTime (clock w (n_time (limited w cfg s)));
    EvLastSendTime (clock w (n_time (limited w cfg s)))]).
Proof.
  intros Hto Hread Hsend.
  destruct (limited_frame w cfg s) as (_ & Hserver & _ & Hns & Hnr & _).
  unfold try_attempt, try_except.
  rewrite attempt_body_run, deliver_run, Hto, Hnr, Hread. cbv zeta.
  rewrite Hns, Hsend, Hserver. reflexivity.
Qed.

(** Where the oracle stands after an attempt that has reconnected. *)
Lemma reconnected_indices (s : state) :
  let s' := reconnected (tick_send (tick_read (limited w cfg s))) in
  n_read s' = S (n_read s) /\ n_send s' = S (n_send s) /\
  n_connect s' = S (n_connect s) /\ n_login s' = S (n_login s) /\
  server s' = n_connect s.
Proof.
  destruct (limited_frame w cfg s) as (_ & _ & _ & Hns & Hnr & Hnc & Hnl).
  cbn. rewrite Hns, Hnr, Hnc, Hnl. auto.
Qed.

(** X12.  A recipient whose first two sends meet a disconnection and whose
    third send succeeds, with reconnections that work and a template that
    can be read: three messages are handed to the server, each after a
    rate-limit check of its own, on three sessions in turn; two new
    sessions are opened, each after a sleep of five seconds; the recipient
    gets exactly one row, a success; the loop over the recipients goes on,
    with [server] naming the last session opened. *)
Theorem recovers_after_two_disconnections (r : recipient) (to h1 h2 h3 m1 m2 : string)
    (s : state) :
  lookup "email" r = Some to ->
  template_file w (n_read s) = inl h1 ->
  template_file w (S (n_read s)) = inl h2 ->
  template_file w (S (S (n_read s))) = inl h3 ->
  send_result w (n_send s) = Some (SMTPServerDisconnected m1) ->
  send_result w (S (n_send s)) = Some (SMTPServerDisconnected m2) ->
  send_result w (S (S (n_send s))) = None ->
  connect_result w (n_connect s) = None ->
  connect_result w (S (n_connect s)) = None ->
  login_result w (n_login s) = None ->
  login_result w (S (n_login s)) = None ->
  let sA := reconnected (tick_send (tick_read (limited w cfg s))) in
  let sB := reconnected (tick_send (tick_read (limited w cfg sA))) in
  let msg := mkMessage (subject (email cfg)) (from (email cfg)) to in
  let t :=
    (limit_trace w cfg s ++
     [EvReadTemplate; EvSend (server s) (msg h1);
      EvSleep 5; EvConnect (n_connect s); EvLogin (n_connect s)]) ++
    (limit_trace w cfg sA ++
     [EvReadTemplate; EvSend (n_connect s) (msg h2);
      EvSleep 5; EvConnect (S (n_connect s)); EvLogin (S (n_connect s))]) ++
    (limit_trace w cfg sB ++
     [EvReadTemplate; EvSend (S (n_connect s)) (msg h3);
      EvWriteRow [to; "success"; ""];
      EvSentCount (sent_count (limited w cfg sB) + 1);
      EvTime (clock w (n_time (limited w cfg sB)));
      EvLastSendTime (clock w (n_time (limited w cfg sB)))]) in
  process_recipient w cfg r s = (Ok Continue, delivered w to (limited w cfg sB), t) /\
  rows_written t = [[to; "success"; ""]] /\
  sends t = [msg h1; msg h2; msg h3] /\
  connects t = [n_connect s; S (n_connect s)] /\
  server (delivered w to (limited w cfg sB)) = S (n_connect s).
Proof.
  intros Hto Hr1 Hr2 Hr3 Hs1 Hs2 Hs3 Hc1 Hc2 Hl1 Hl2 sA sB msg t.
  destruct (reconnected_indices s) as (HrA & HsA & HcA & HlA & HserverA).
  fold sA in HrA, HsA, HcA, HlA, HserverA.
  destruct (reconnected_indices sA) as (HrB & HsB & HcB & HlB & HserverB).
  fold sB in HrB, HsB, HcB, HlB, HserverB.
  assert (Hr2' : template_file w (n_read sA) = inl h2) by (rewrite HrA; exact Hr2).
  assert (Hs2' : send_result w (n_send sA) = Some (SMTPServerDisconnected m2))
    by (rewrite HsA; exact Hs2).
  assert (Hc2' : connect_result w (n_connect sA) = None) by (rewrite HcA; exact Hc2).
  assert (Hl2' : login_result w (n_login sA) = None) by (rewrite HlA; exact Hl2).
  assert (Hr3' : template_file w (n_read sB) = inl h3)
    by (rewrite HrB, HrA; exact Hr3).
  assert (Hs3' : send_result w (n_send sB) = None) by (rewrite HsB, HsA; exact Hs3).
  pose proof (try_attempt_reconnects r to h1 m1 0 s Hto Hr1 Hs1 eq_refl Hc1 Hl1) as H1.
  pose proof (try_attempt_reconnects r to h2 m2 1 sA Hto Hr2' Hs2' eq_refl Hc2' Hl2') as H2.
  pose proof (try_attempt_delivers r to h3 2 sB Hto Hr3' Hs3') as H3.
  fold sA in H1. fold sB in H2.
  rewrite HserverA, HcA in H2. rewrite HserverB, HcA in H3.
  destruct (limit_trace_silent w cfg s) as (Hsd0 & Hrw0 & _).
  destruct (limit_trace_silent w cfg sA) as (HsdA & HrwA & _).
  destruct (limit_trace_silent w cfg sB) as (HsdB & HrwB & _).
  destruct (limit_trace_sessions w cfg s) as (Hcn0 & _).
  destruct (limit_trace_sessions w cfg sA) as (HcnA & _).
  destruct (limit_trace_sessions w cfg sB) as (HcnB & _).
  destruct (limited_frame w cfg sB) as (_ & HserverB' & _).
  split.
  { rewrite process_recipient_run, Hto.
    change (range retries) with [0; 1; 2].
    rewrite retry_loop_cons, H1, retry_loop_cons, H2, retry_loop_cons, H3.
    reflexivity. }
  unfold t. repeat split.
  - rewrite !rows_written_app, Hrw0, HrwA, HrwB. reflexivity.
  - rewrite !sends_app, Hsd0, HsdA, HsdB. reflexivity.
  - rewrite !connects_app, Hcn0, HcnA, HcnB. reflexivity.
  - cbn. rewrite HserverB'. rewrite HserverB, HcA. reflexivity.
Qed.

End Recovery.

Section Preflight.

Variable w : world.
Variable cfg : config.

(** X13.  How the pre-flight check can end the run.  A connection that
    cannot be made ends it at once, and nothing is quit.  Once connected,
    the session is always quit, and a failure of the QUIT other than a
    server that has gone away ends the run with the exception of the QUIT:
    also when the login had succeeded, and in place of the exception of a
    login that had failed.  In none of these cases is the results file
    touched. *)
Theorem preflight_failures (s : state) (e : exn) :
  (connect_result w (n_connect s) = Some e ->
   send_newsletters w cfg s = (Raise e, tick_connect s, [EvConnect (n_connect s)])) /\
  (connect_result w (n_connect s) = None ->
   quit_result w (n_quit s) = Some e ->
   is_disconnected e = false ->
   send_newsletters w cfg s =
   (Raise e, tick_quit (tick_login (tick_connect s)),
    [EvConnect (n_connect s); EvLogin (n_connect s); EvQuit (n_connect s)])).
Proof.
  split.
  - intros Hc. unfold send_newsletters. unfold bind at 1.
    rewrite test_smtp_connection_run, Hc. reflexivity.
  - intros Hc Hq He. unfold send_newsletters. unfold bind at 1.
    rewrite test_smtp_connection_run, Hc, Hq. cbv zeta.
    destruct e; [discriminate He | reflexivity | reflexivity].
Qed.

End Preflight.

Section ZeroBatch.

Variable w : world.
Variable cfg : config.

Lemma checks_app (t1 t2 : list event) : checks (t1 ++ t2) = checks t1 + checks t2.
Proof.
  induction t1 as [|e t1 IH]; [reflexivity|].
  destruct e; cbn [checks app]; rewrite ?IH; lia.
Qed.

Lemma limit_trace_checks (s : state) : checks (limit_trace w cfg s) = 1.
Proof.
  unfold limit_trace. rewrite rate_limit_run.
  destruct (sent_count s >=? _).
  - cbn [snd checks]. rewrite checks_app.
    assert (H : forall n, checks (repeat (EvSleep 1) n) = 0)
      by (intros n; induction n; auto).
    rewrite H. reflexivity.
  - cbv zeta. destruct (Qltb _ _); reflexivity.
Qed.

Lemma on_error_checks (a : Z) (r : recipient) (e : exn) (s : state) :
  checks (snd (on_error w a r e s)) = 0.
Proof.
  rewrite on_error_run.
  destruct (is_disconnected e).
  - destruct (a <? retries - 1); [|reflexivity].
    destruct (connect_result w (n_connect s)); [reflexivity|].
    destruct (login_result w (n_login s)); reflexivity.
  - destruct (lookup "email" r); reflexivity.
Qed.

(** X14.  A batch size of 0 or less does not switch batching off.  With a
    counter that is not negative, every rate-limit check of the run finds
    the batch full: each attempt is preceded by a full batch pause and a
    reset of the counter, and the limiter never gets to the delay between
    two emails. *)
Theorem batch_size_zero_pauses_every_attempt (s : state) :
  emails_per_batch (rate_limit cfg) <= 0 ->
  0 <= sent_count s ->
  resets (snd (send_newsletters w cfg s)) = checks (snd (send_newsletters w cfg s)) /\
  0 <= sent_count (snd (fst (send_newsletters w cfg s))).
Proof.
  intros Hbatch Hs.
  set (R := fun s s' t => 0 <= sent_count s ->
                          0 <= sent_count s' /\ resets t = checks t).
  assert (Hrun : R s (snd (fst (send_newsletters w cfg s)))
                     (snd (send_newsletters w cfg s))).
  { apply (follows_send_newsletters R).
    - intros s0 H0. auto.
    - intros s0 s1 s2 t1 t2 H1 H2 H0.
      destruct (H1 H0) as [Hs1 E1]. destruct (H2 Hs1) as [Hs2 E2].
      rewrite resets_app, checks_app. split; [exact Hs2 | lia].
    - intros s0 s' [Hc _] H0. rewrite Hc. auto.
    - intros s0 s' e He [Hc _] H0. rewrite Hc.
      split; [exact H0|]. destruct e; try discriminate He; reflexivity.
    - intros r a s0 H0.
      pose proof (limited_sent_count w cfg s0) as Hc0.
      destruct (limit_trace_account w cfg s0) as [_ Hres0].
      pose proof (limit_trace_checks s0) as Hchk0.
      assert (Hfull : (sent_count s0 >=? emails_per_batch (rate_limit cfg)) = true)
        by (apply Z.geb_le; lia).
      rewrite Hfull in Hc0, Hres0.
      destruct (attempt_body w cfg r s0) as [[[c|e] s1] t1] eqn:Hbody.
      + rewrite (try_attempt_ok w cfg _ a _ _ _ _ Hbody). cbn [fst snd].
        rewrite attempt_body_run, deliver_run in Hbody.
        destruct (lookup "email" r) as [to|]; [|discriminate].
        destruct (template_file w _) as [html|]; [|discriminate].
        cbv zeta in Hbody. destruct (send_result w _); [discriminate|].
        inversion Hbody; subst; clear Hbody.
        rewrite resets_app, checks_app, Hres0, Hchk0, Hc0.
        cbn. lia.
      + pose proof (try_attempt_raise w cfg _ a _ _ _ _ Hbody) as Htry.
        pose proof (on_error_checks a r e s1) as Hchk2.
        destruct (on_error w a r e s1) as [[res s2] t2] eqn:Herr.
        rewrite Htry. cbn [fst snd] in *.
        destruct (on_error_frame w _ _ _ _ _ _ _ Herr) as (Hc & _ & Hca & _).
        destruct (attempt_body_raise w cfg _ _ _ _ _ Hbody) as (t' & -> & Hdel).
        destruct (deliver_raise w cfg _ _ _ _ _ Hdel) as (_ & Hca' & _ & _ & Hc' & _).
        assert (Hr' : resets t' = 0) by (unfold resets; rewrite Hca'; reflexivity).
        assert (Hr2 : resets t2 = 0) by (unfold resets; rewrite Hca; reflexivity).
        assert (Hk' : checks t' = 0).
        { rewrite deliver_run in Hdel.
          destruct (lookup "email" r); [|inversion Hdel; reflexivity].
          destruct (template_file w _); [|inversion Hdel; reflexivity].
          cbv zeta in Hdel. destruct (send_result w _); inversion Hdel; reflexivity. }
        rewrite !resets_app, !checks_app, Hres0, Hchk0, Hr', Hr2, Hk', Hchk2.
        split; [lia | reflexivity]. }
  destruct (Hrun Hs) as [Hend Heq]. auto.
Qed.

End ZeroBatch.

(** ** The further properties on scenarios *)

(** X1 on a connection that drops after the first send: the run is aborted
    at the second recipient and leaves the row of the first. *)
Lemma results_are_a_prefix_witness :
  exists k rows,
    Forall2 outcome_of (firstn k three_readers) rows /\
    results_file (snd (fst (send_newsletters drops_after_first example_config init)))
      = Some (header :: rows) /\
    (k < List.length three_readers)%nat.
Proof.
  destruct (results_are_a_prefix drops_after_first example_config init
              (snd (fst (send_newsletters drops_after_first example_config init)))
              (fst (fst (send_newsletters drops_after_first example_config init)))
              (snd (send_newsletters drops_after_first example_config init)))
    as (rs & k & rows & Hcsv & _ & Hall & _ & Hfile & _ & _ & Hloop & _).
  - vm_compute. reflexivity.
  - vm_compute. tauto.
  - injection Hcsv as <-.
    exists k, rows. split; [exact Hall|]. split; [exact Hfile|].
    apply Hloop.
    repeat split; try reflexivity. exists "<p>hi</p>". reflexivity.
Defined.

(** X2 on the scenario of three recipients and a batch of two. *)
Lemma counter_accounts_for_successes_witness :
  sent_count (snd (fst (main all_fine (inl example_config)))) =
  successes (snd (main all_fine (inl example_config)))
  - 2 * resets (snd (main all_fine (inl example_config))).
Proof.
  apply (counter_accounts_for_successes all_fine example_config).
  vm_compute. discriminate.
Defined.

(** X4 on the message to the second of three recipients. *)
Lemma mail_goes_to_recipients_only_witness :
  addressed all_fine example_config
    (mkMessage "News" "news@x.com" "b@x.com" "<p>hi</p>").
Proof.
  apply (mail_goes_to_recipients_only all_fine example_config init).
  vm_compute. tauto.
Defined.


(** X6 on a connection that drops twice: the session opened by the first
    reconnection is never quit. *)
Lemma reconnections_are_never_quit_witness :
  (1 < 2)%nat /\
  ~ In 2%nat (quits (snd (send_newsletters drops_twice example_config init))).
Proof.
  destruct (reconnections_are_never_quit drops_twice example_config init) as [_ H].
  apply (H [to_ "c@x.com"] 2%nat).
  - repeat split; try reflexivity. exists "<p>hi</p>". reflexivity.
  - vm_compute. tauto.
Defined.

(** X7 on a file with the columns [name] and [address]. *)
Lemma missing_email_column_aborts_witness :
  send_newsletters (calm (DictReader no_email_column)) example_config init
  = (Raise (Exception "'email'"), tick_quit (loop_entry init),
     prologue init ++ [EvQuit 1]).
Proof.
  destruct (missing_email_column_aborts (calm (DictReader no_email_column))
              example_config init
              ["name"; "address"] [["Reader"; "a@x.com"]; []; ["Reader"; "b@x.com"]])
    as (_ & (e & Hrun & He) & _).
  - split.
    + repeat constructor; cbn; intuition discriminate.
    + apply Forall_cons; [right; reflexivity|].
      apply Forall_cons; [left; reflexivity|].
      apply Forall_cons; [right; reflexivity | constructor].
  - cbn. intuition discriminate.
  - discriminate.
  - repeat split; try reflexivity. exists "<p>hi</p>". reflexivity.
  - rewrite Hrun, (He eq_refl). reflexivity.
Defined.

(** X8 on a world in which every call succeeds. *)
Lemma no_recipients_witness :
  results_file (snd (fst (send_newsletters (calm []) example_config init)))
  = Some [header].
Proof.
  destruct (no_recipients (calm []) example_config init) as (Hrun & Hfile & _).
  - repeat split; try reflexivity. exists "<p>hi</p>". reflexivity.
  - reflexivity.
  - rewrite Hrun. exact Hfile.
Defined.

(** X9 on a missing template file. *)
Lemma unreadable_input_aborts_witness :
  send_newsletters missing_template example_config init
  = (Raise (Exception "[Errno 2] No such file or directory: 'template.html'"),
     tick_read (tick_quit (tick_login (tick_connect init))),
     [EvConnect 0; EvLogin 0; EvQuit 0; EvReadTemplate]).
Proof.
  destruct (unreadable_input_aborts missing_template example_config init
              (Exception "[Errno 2] No such file or directory: 'template.html'")
              eq_refl eq_refl eq_refl) as (_ & Htemplate & _).
  exact (Htemplate eq_refl).
Defined.

(** X10 on a server that cannot be reached again after a disconnection. *)
Lemma failed_reconnection_aborts_witness :
  fst (fst (retry_loop unreachable example_config (to_ "a@x.com") [0; 1; 2] init))
  = Raise (Exception "[Errno 111] Connection refused").
Proof.
  destruct (failed_reconnection_aborts unreachable example_config (to_ "a@x.com")
              0 [1; 2] init
              (snd (fst (attempt_body unreachable example_config (to_ "a@x.com") init)))
              (snd (attempt_body unreachable example_config (to_ "a@x.com") init))
              "Connection unexpectedly closed"
              (Exception "[Errno 111] Connection refused"))
    as (_ & Hconnect & _).
  - vm_compute. reflexivity.
  - reflexivity.
  - destruct (Hconnect eq_refl) as [Hloop _]. rewrite Hloop. reflexivity.
Defined.

(** X11 on a connection that drops twice, for a sender with a full batch. *)
Lemma one_batch_pause_per_recipient_witness :
  resets (snd (process_recipient drops_twice example_config (to_ "c@x.com")
                 (set_sent_count 2 init))) <= 1.
Proof.
  destruct (one_batch_pause_per_recipient drops_twice example_config
              (to_ "c@x.com") (set_sent_count 2 init)) as [H _].
  - vm_compute. discriminate.
  - vm_compute. discriminate.
  - exact H.
Defined.

(** X12 on a connection that drops twice. *)
Lemma recovers_after_two_disconnections_witness :
  rows_written (snd (process_recipient drops_twice example_config (to_ "c@x.com") init))
  = [["c@x.com"; "success"; ""]].
Proof.
  destruct (recovers_after_two_disconnections drops_twice example_config
              (to_ "c@x.com") "c@x.com" "<p>hi</p>" "<p>hi</p>" "<p>hi</p>"
              "Connection unexpectedly closed" "Connection unexpectedly closed" init
              eq_refl eq_refl eq_refl eq_refl eq_refl eq_refl eq_refl
              eq_refl eq_refl eq_refl eq_refl)
    as (Hrun & Hrows & _).
  rewrite Hrun. exact Hrows.
Defined.

(** X14 on a configuration with [emails_per_batch: 0]. *)
Lemma batch_size_zero_pauses_every_attempt_witness :
  resets (snd (send_newsletters all_fine zero_batch_config init))
  = checks (snd (send_newsletters all_fine zero_batch_config init)) /\
  0 <= sent_count (snd (fst (send_newsletters all_fine zero_batch_config init))).
Proof.
  apply (batch_size_zero_pauses_every_attempt all_fine zero_batch_config init).
  - vm_compute. discriminate.
  - vm_compute. discriminate.
Defined.

(** X13 on a server that cannot be reached: the run ends at the first
    connection, and nothing is quit. *)
Lemma preflight_failures_witness :
  send_newsletters unreachable example_config init
  = (Raise (Exception "[Errno 111] Connection refused"), tick_connect init,
     [EvConnect 0]).
Proof.
  destruct (preflight_failures unreachable example_config init
              (Exception "[Errno 111] Connection refused")) as [Hconnect _].
  exact (Hconnect eq_refl).
Defined.
